(** * Fred, the Video Butcher: calibration, frame scanning and scan loop

    A shallow embedding of the detection engine of the repository
    (src/utils/visionDetection.ts and its sibling revisions, and the
    useVisionEngine hook), with the properties its specification states.

    Conventions of the embedding.
    - A JavaScript [number] is a rational ([Q]) that stands for the
      binary64 number nearest to it.  Integers below 2^53 and multiples of
      0.5 are binary64 numbers, and their sums and products are exact.  A
      quotient of two such integers that is compared at once with a
      literal (the IoU with 0.3, a density of the triad check with 0.01)
      is taken exactly: the engine compares the roundings of the two
      rationals, which for areas below 10^15 pixels compare alike.  Where
      the engine goes on computing with a rounded number, or compares it
      with a number that the caller supplies (the projection of the
      template, [Math.floor(nb.x * fw)]; the per-axis deviation,
      [Math.abs(rect.x / cols - target.x) > 0.15]; the shape deviation, the
      minimum area and the white density of src/utils/visionDetection.ts;
      the progress of the scan loop), each operation rounds its operands
      and its result with [Js.double], to a significand of 53 bits.  The
      range of the exponent is not modelled (no overflow, no underflow):
      these numbers are products and quotients of frame sizes, areas and
      normalized coordinates.  The numbers that calibration stores in the
      profile are kept as exact rationals: the scanner rounds the geometry
      where it reads it, and the colour bounds go to the collaborator.
      Where the engine divides by a quantity that can be zero, the
      quotient is a [Js.num], which has the infinities and NaN.
    - The global [cv] is an explicit parameter of type [option Collaborator]:
      [None] is [typeof cv === 'undefined'].
    - [throw], [try]/[catch] and [console.*] are an error monad with a log.
    - The matrices that [scanFrame] allocates are native objects with a
      [delete()] method.  Each local variable that holds one is [Null],
      [Live] or [Deleted]; [delete()] on a deleted object throws, as the
      binding of OpenCV.js does ("instance already deleted").
    - [setState] appends the new session state to a trace; every [await]
      leaves a [Suspend] mark in the same trace. *)

From Stdlib Require Import QArith Qround Qminmax Qabs ZArith List Bool Lia Lqa.
From Stdlib Require Import Sorted.
Import ListNotations.

Local Open Scope Q_scope.

(** ** JavaScript arithmetic used by the engine *)

Module Js.

(** [a < b] on numbers. *)
Definition ltb (a b : Q) : bool := negb (Qle_bool b a).

(** [a > b] on numbers. *)
Definition gtb (a b : Q) : bool := ltb b a.

(** [a >= b] on numbers. *)
Definition geb (a b : Q) : bool := Qle_bool b a.

(** [Math.trunc]: rounding towards zero. *)
Definition trunc (x : Q) : Z :=
  if ltb x 0 then Qceiling x else Qfloor x.

(** The remainder operator [a % n]: the sign of the result is the sign of
    the dividend. *)
Definition rem (a n : Q) : Q := a - n * inject_Z (trunc (a / n)).

(** [Math.round]: the nearest integer, halves upwards. *)
Definition round (x : Q) : Z := Qfloor (x + (1 # 2)).

(** [Math.floor]. *)
Definition floor (x : Q) : Z := Qfloor x.

Definition max3 (a b c : Q) : Q := Qmax (Qmax a b) c.
Definition min3 (a b c : Q) : Q := Qmin (Qmin a b) c.

(** The result of a division whose divisor may be zero. *)
Inductive num : Type :=
| Fin (q : Q)
| PosInf
| NegInf
| NaN.

(** [a / b] (zeros are positive zeros). *)
Definition div (a b : Q) : num :=
  if Qeq_bool b 0 then
    if Qeq_bool a 0 then NaN else if ltb 0 a then PosInf else NegInf
  else Fin (a / b).

(** [n / b] for a quotient [n]. *)
Definition ndiv (n : num) (b : Q) : num :=
  match n with
  | Fin a => div a b
  | PosInf => if ltb b 0 then NegInf else PosInf
  | NegInf => if ltb b 0 then PosInf else NegInf
  | NaN => NaN
  end.

(** [n - b]. *)
Definition nsub (n : num) (b : Q) : num :=
  match n with
  | Fin a => Fin (a - b)
  | other => other
  end.

(** [Math.abs(n)]. *)
Definition nabs (n : num) : num :=
  match n with
  | Fin a => Fin (Qabs a)
  | PosInf | NegInf => PosInf
  | NaN => NaN
  end.

(** [n > b]: false on NaN. *)
Definition ngtb (n : num) (b : Q) : bool :=
  match n with
  | Fin a => gtb a b
  | PosInf => true
  | NegInf | NaN => false
  end.

(** *** Rounding to binary64 *)

(** [2^e] *)
Definition pow2 (e : Z) : Q :=
  match e with
  | Z0 => 1
  | Zpos p => inject_Z (2 ^ Zpos p)
  | Zneg p => 1 # (2 ^ p)
  end.

(** The integer nearest to [a / b], a tie going to the even one
    ([b > 0]). *)
Definition nearest_even (a b : Z) : Z :=
  let q := (a / b)%Z in
  match (2 * (a mod b) ?= b)%Z with
  | Lt => q
  | Gt => (q + 1)%Z
  | Eq => if Z.even q then q else (q + 1)%Z
  end.

(** The exponent of the last bit of the significand of [n / d]: the [e]
    with [2^52 <= (n / d) / 2^e < 2^53]. *)
Definition exponent (n d : positive) : Z :=
  let e := (Z.log2 (Zpos n) - Z.log2 (Zpos d))%Z in
  ((if Qle_bool (pow2 e) (Zpos n # d) then e else e - 1) - 52)%Z.

(** The number with a significand of 53 bits nearest to [n / d], ties to
    even. *)
Definition nearest (n d : positive) : Q :=
  let e := exponent n d in
  let m := if (0 <=? e)%Z then nearest_even (Zpos n) (Zpos d * 2 ^ e)
           else nearest_even (Zpos n * 2 ^ (- e)) (Zpos d) in
  Qred (inject_Z m * pow2 e).

(** The number that a rational stands for: the nearest binary64 number.
    The exponent is not bounded: no number of the engine is near the ends
    of the range. *)
Definition double (q : Q) : Q :=
  match Qred q with
  | Z0 # _ => 0
  | Zpos n # d => nearest n d
  | Zneg n # d => - nearest n d
  end.

(** [a * b], rounded. *)
Definition mul64 (a b : Q) : Q := double (double a * double b).

(** [a / b], rounded, for a divisor that is not zero. *)
Definition quot64 (a b : Q) : Q := double (double a / double b).

(** [a / b], rounded. *)
Definition div64 (a b : Q) : num :=
  match div (double a) (double b) with
  | Fin _ => Fin (quot64 a b)
  | other => other
  end.

(** [n / b] for a quotient [n], rounded. *)
Definition ndiv64 (n : num) (b : Q) : num :=
  match n with
  | Fin a => div64 a b
  | PosInf => if ltb (double b) 0 then NegInf else PosInf
  | NegInf => if ltb (double b) 0 then PosInf else NegInf
  | NaN => NaN
  end.

(** [n - b], rounded. *)
Definition nsub64 (n : num) (b : Q) : num :=
  match n with
  | Fin a => Fin (double (a - double b))
  | other => other
  end.

End Js.

(** ** Colour Range Model: [getHsvRange] *)

Module ColorRange.

(** [interface HSVRange { lower: number[]; upper: number[] }] *)
Record HSVRange : Type := mkRange { lower : list Q; upper : list Q }.

(** The [tolerance] argument [{ h, s, v }]. *)
Record Tolerance : Type := mkTol { tol_h : Q; tol_s : Q; tol_v : Q }.

(** The default [{ h: 10, s: 40, v: 40 }]. *)
Definition default_tolerance : Tolerance := mkTol 10 40 40.

(** An RGB sample [[r, g, b]]. *)
Definition RGB : Type := (Q * Q * Q)%type.

(** The hue in degrees, before the rescaling to OpenCV's 0..180:
    the [if]/[else if] chain on which channel is the maximum, then
    [if (h < 0) h += 360]. *)
Definition hue_degrees (r g b : Q) : Q :=
  let max := Js.max3 r g b in
  let min := Js.min3 r g b in
  let delta := max - min in
  let h :=
    if Qeq_bool delta 0 then 0
    else if Qeq_bool max r then 60 * Js.rem ((g - b) / delta) 6
    else if Qeq_bool max g then 60 * (((b - r) / delta) + 2)
    else if Qeq_bool max b then 60 * (((r - g) / delta) + 4)
    else 0 in
  if Js.ltb h 0 then h + 360 else h.

Definition getHsvRange (rgb : RGB) (tolerance : Tolerance) : HSVRange :=
  let '(r0, g0, b0) := rgb in
  let r := r0 / 255 in
  let g := g0 / 255 in
  let b := b0 / 255 in
  let max := Js.max3 r g b in
  let min := Js.min3 r g b in
  let delta := max - min in
  let h := hue_degrees r g b in
  let s := if Qeq_bool max 0 then 0 else delta / max in
  let v := max in
  let cvH := h / 2 in
  let cvS := s * 255 in
  let cvV := v * 255 in
  {| lower := [ Qmax 0 (cvH - tol_h tolerance);
                Qmax 0 (cvS - tol_s tolerance);
                Qmax 0 (cvV - tol_v tolerance);
                0 ];
     upper := [ Qmin 180 (cvH + tol_h tolerance);
                Qmin 255 (cvS + tol_s tolerance);
                Qmin 255 (cvV + tol_v tolerance);
                255 ] |}.

(** [TARGET_COLORS] *)
Definition MENU_DARK : RGB := (14, 4, 49).
Definition MENU_LIGHT : RGB := (50, 4, 139).
Definition TEXT_WHITE : RGB := (255, 255, 255).

(** Channel [i] of a bound array ([undefined] read as 0). *)
Definition chan (bound : list Q) (i : nat) : Q := nth i bound 0.

(** The invariant of a Colour Range: on each of the three colour channels
    the lower bound is at most the upper bound, and both lie in the
    channel's legal interval, [0,180] for hue and [0,255] for saturation
    and value. *)
Definition channel_ok (rg : HSVRange) (i : nat) (top : Q) : Prop :=
  0 <= chan (lower rg) i /\
  chan (lower rg) i <= chan (upper rg) i /\
  chan (upper rg) i <= top.

Definition range_ok (rg : HSVRange) : Prop :=
  channel_ok rg 0 180 /\ channel_ok rg 1 255 /\ channel_ok rg 2 255.

(** An RGB sample has its three channels in 0..255. *)
Definition rgb_sample (rgb : RGB) : Prop :=
  let '(r, g, b) := rgb in
  (0 <= r /\ r <= 255) /\ (0 <= g /\ g <= 255) /\ (0 <= b /\ b <= 255).

Definition tolerance_nonneg (t : Tolerance) : Prop :=
  0 <= tol_h t /\ 0 <= tol_s t /\ 0 <= tol_v t.

End ColorRange.

(** ** Exceptions and the console *)

Module Eff.

(** What the engine writes to the console. *)
Inductive LogEntry : Type :=
| LogSpatialMatch (iou : Q) (x y : Z)         (* console.log, debug mode *)
| LogTriadDensity (light white : Js.num)      (* console.log, debug mode *)
| WarnRoiCheck                                (* console.warn in the inner catch *)
| ErrorScanFrame                              (* console.error in scanFrame's catch *)
| WarnNoMenuBackground                        (* calibration, fixed colours *)
| WarnNoTargetObject                          (* calibration, dominant hue *)
| ErrorCalibration.                           (* console.error in calibration's catch *)

(** A thrown value. *)
Inductive Exn : Type :=
| OpenCVNotLoaded        (* new Error("OpenCV is not loaded yet...") *)
| TypeError              (* a property read on null or undefined *)
| CvException            (* thrown inside the collaborator *)
| BindingError.          (* delete() on an object that is already deleted *)

Inductive Outcome (A : Type) : Type :=
| Returned (a : A)
| Thrown (e : Exn).
Arguments Returned {A} a.
Arguments Thrown {A} e.

(** A computation: how it ends, and what it logged meanwhile. *)
Definition M (A : Type) : Type := (Outcome A * list LogEntry)%type.

Definition ret {A} (a : A) : M A := (Returned a, []).

Definition throw {A} (e : Exn) : M A := (Thrown e, []).

Definition bind {A B} (m : M A) (k : A -> M B) : M B :=
  match m with
  | (Returned a, l1) => let '(o, l2) := k a in (o, l1 ++ l2)
  | (Thrown e, l1) => (Thrown e, l1)
  end.

(** [try { m } catch (e) { handler e }] *)
Definition try_catch {A} (m : M A) (handler : Exn -> M A) : M A :=
  match m with
  | (Returned a, l1) => (Returned a, l1)
  | (Thrown e, l1) => let '(o, l2) := handler e in (o, l1 ++ l2)
  end.

Definition console (entry : LogEntry) : M unit := (Returned tt, [entry]).

(** A call into the collaborator that either gives a value or throws. *)
Definition cv_call {A} (r : option A) : M A :=
  match r with
  | Some a => ret a
  | None => throw CvException
  end.

Definition when (b : bool) (m : M unit) : M unit := if b then m else ret tt.

Definition outcome {A} (m : M A) : Outcome A := fst m.
Definition logged {A} (m : M A) : list LogEntry := snd m.

End Eff.

Declare Scope eff_scope.
Delimit Scope eff_scope with eff.
Notation "x <- m ;; k" := (Eff.bind m (fun x => k))
  (at level 61, m at next level, right associativity) : eff_scope.
Notation "m ;;; k" := (Eff.bind m (fun _ => k))
  (at level 61, right associativity) : eff_scope.

(** ** The local variables of one call of [scanFrame] *)

Module Scope.
Import Eff.

(** The variables that hold a matrix, as the revisions of [scanFrame]
    declare them before their [try]. *)
Inductive Var : Type :=
| hsv | maskDark | maskPurple | contours | hierarchy | lowP | highP
| roi | roiWhite | maskLight | maskWhite | lowL | highL | lowW | highW.

Definition index (v : Var) : nat :=
  match v with
  | hsv => 0 | maskDark => 1 | maskPurple => 2 | contours => 3 | hierarchy => 4
  | lowP => 5 | highP => 6 | roi => 7 | roiWhite => 8 | maskLight => 9
  | maskWhite => 10 | lowL => 11 | highL => 12 | lowW => 13 | highW => 14
  end.

Definition same (v w : Var) : bool := Nat.eqb (index v) (index w).

(** What a variable holds: [null], a matrix, or a matrix on which
    [delete()] has been called. *)
Inductive Ref : Type := Null | Live | Deleted.

(** The variables of one call: [detected] and the matrices. *)
Record Store : Type := mkStore { detected : bool; refs : Var -> Ref }.

(** [let detected = false; let hsv: any = null; ...] *)
Definition fresh : Store := mkStore false (fun _ => Null).

Definition put (v : Var) (r : Ref) (s : Store) : Store :=
  mkStore (detected s) (fun w => if same w v then r else refs s w).

(** A piece of the body of the function: how it ends, the variables then,
    and what it logged meanwhile. *)
Definition ST (A : Type) : Type := Store -> Outcome A * Store * list LogEntry.

Definition ret {A} (a : A) : ST A := fun s => (Returned a, s, []).

Definition throw {A} (e : Exn) : ST A := fun s => (Thrown e, s, []).

Definition bind {A B} (m : ST A) (k : A -> ST B) : ST B :=
  fun s =>
    match m s with
    | (Returned a, s1, l1) => let '(o, s2, l2) := k a s1 in (o, s2, l1 ++ l2)
    | (Thrown e, s1, l1) => (Thrown e, s1, l1)
    end.

(** A computation that does not touch the variables. *)
Definition lift {A} (m : M A) : ST A := fun s => (fst m, s, snd m).

(** [v = new cv.Mat(...)], [v = hsv.roi(rect)]: the variable holds a new
    matrix. *)
Definition assign (v : Var) : ST unit := fun s => (Returned tt, put v Live s, []).

(** [v = null] *)
Definition clear (v : Var) : ST unit := fun s => (Returned tt, put v Null s, []).

(** [v.delete()] *)
Definition delete (v : Var) : ST unit :=
  fun s =>
    match refs s v with
    | Live => (Returned tt, put v Deleted s, [])
    | Deleted => (Thrown BindingError, s, [])
    | Null => (Thrown TypeError, s, [])
    end.

(** [if (v) v.delete()] *)
Definition delete_if_set (v : Var) : ST unit :=
  fun s =>
    match refs s v with
    | Null => (Returned tt, s, [])
    | _ => delete v s
    end.

(** [if (v) { v.delete(); v = null; }] *)
Definition release (v : Var) : ST unit :=
  fun s =>
    match refs s v with
    | Null => (Returned tt, s, [])
    | _ => bind (delete v) (fun _ => clear v) s
    end.

(** [detected = true] *)
Definition set_detected : ST unit := fun s => (Returned tt, mkStore true (refs s), []).

(** [return detected] *)
Definition get_detected : ST bool := fun s => (Returned (detected s), s, []).

(** [try { m } catch (e) { handler e }] *)
Definition try_catch {A} (m : ST A) (handler : Exn -> ST A) : ST A :=
  fun s =>
    match m s with
    | (Returned a, s1, l1) => (Returned a, s1, l1)
    | (Thrown e, s1, l1) => let '(o, s2, l2) := handler e s1 in (o, s2, l1 ++ l2)
    end.

(** [try { m } finally { fin }]: the block [fin] runs however [m] ends,
    and what it throws replaces the way [m] ended. *)
Definition try_finally {A} (m : ST A) (fin : ST unit) : ST A :=
  fun s =>
    let '(o, s1, l1) := m s in
    match fin s1 with
    | (Returned _, s2, l2) => (o, s2, l1 ++ l2)
    | (Thrown e, s2, l2) => (Thrown e, s2, l1 ++ l2)
    end.

(** The statements [if (v) v.delete();] of a [finally] block, in order. *)
Fixpoint delete_all (vs : list Var) : ST unit :=
  match vs with
  | [] => ret tt
  | v :: rest => bind (delete_if_set v) (fun _ => delete_all rest)
  end.

(** A call of the function: its variables are new, and gone at the end. *)
Definition run {A} (m : ST A) : M A := let '(o, _, l) := m fresh in (o, l).

Definition when (b : bool) (m : ST unit) : ST unit := if b then m else ret tt.

(** A variable holds a deleted matrix. *)
Definition deleted (s : Store) (v : Var) : bool :=
  match refs s v with
  | Deleted => true
  | _ => false
  end.

(** The variables when the loop over the contours starts: the matrices of
    the frame are allocated, [mask] being the variable of the colour
    mask. *)
Definition loop_store (mask : Var) : Store :=
  put hierarchy Live
    (put contours Live
       (put mask Live
          (put highP Live
             (put lowP Live
                (put hsv Live fresh))))).

Definition outcome {A} (r : Outcome A * Store * list LogEntry) : Outcome A := fst (fst r).
Definition store {A} (r : Outcome A * Store * list LogEntry) : Store := snd (fst r).
Definition logged {A} (r : Outcome A * Store * list LogEntry) : list LogEntry := snd r.

End Scope.

Declare Scope st_scope.
Delimit Scope st_scope with st.
Notation "x <- m ;; k" := (Scope.bind m (fun x => k))
  (at level 61, m at next level, right associativity) : st_scope.
Notation "m ;;; k" := (Scope.bind m (fun _ => k))
  (at level 61, right associativity) : st_scope.

(** ** The image-processing collaborator *)

Module Cv.

(** A pixel of an 8-bit HSV image: hue 0..180, saturation and value
    0..255. *)
Definition Pixel : Type := (Z * Z * Z)%type.

(** An HSV image, row by row. *)
Definition Mat : Type := list (list Pixel).

(** A binary mask. *)
Definition Mask : Type := list (list bool).

(** [cv.Rect] and the result of [cv.boundingRect]. *)
Record Rect : Type := mkRect { x : Z; y : Z; width : Z; height : Z }.

(** One element of the [MatVector] that [cv.findContours] fills, seen
    through [cv.boundingRect] and [cv.contourArea]. *)
Record Contour : Type := mkContour { boundingRect : Rect; contourArea : Q }.

(** A frame as the engine receives it: an RGBA image with its size. *)
Record Frame : Type := mkFrame {
  cols : Z;
  rows : Z;
  rgba : list (list (Z * Z * Z * Z))
}.

(** The operations of [cv] whose algorithm is the library's own. *)
Record Collaborator : Type := mkCv {
  (** [cvtColor(src, hsv, COLOR_RGBA2RGB); cvtColor(hsv, hsv, COLOR_RGB2HSV)]:
      [None] when a conversion throws. *)
  cvtColorHSV : Frame -> option Mat;
  (** How [new cv.Mat(rows, cols, type, scalar)] stores one channel of the
      scalar in an 8-bit matrix. *)
  saturate : Q -> Z;
  (** [findContours(mask, contours, hierarchy, RETR_EXTERNAL,
      CHAIN_APPROX_SIMPLE)], in the order of the resulting vector. *)
  findContours : Mask -> list Contour
}.

(** The collaborator whose [findContours] fills the vector with the given
    contours, all else being equal. *)
Definition yielding (cv : Collaborator) (contours : list Contour) : Collaborator :=
  {| cvtColorHSV := cvtColorHSV cv;
     saturate := saturate cv;
     findContours := fun _ => contours |}.

Definition mat_rows {A} (m : list (list A)) : Z := Z.of_nat (length m).
Definition mat_cols {A} (m : list (list A)) : Z :=
  match m with
  | [] => 0%Z
  | row :: _ => Z.of_nat (length row)
  end.

Definition slice {A} (from len : Z) (l : list A) : list A :=
  firstn (Z.to_nat len) (skipn (Z.to_nat from) l).

(** [m.roi(rect)]: the sub-image, or an exception when the rectangle does
    not lie inside the image. *)
Definition roi (m : Mat) (r : Rect) : option Mat :=
  if ((0 <=? x r) && (0 <=? width r) && (x r + width r <=? mat_cols m) &&
      (0 <=? y r) && (0 <=? height r) && (y r + height r <=? mat_rows m))%Z
  then Some (map (slice (x r) (width r)) (slice (y r) (height r) m))
  else None.

(** One pixel against the bound matrices built from [lo] and [hi]. *)
Definition pixel_in_range (cv : Collaborator) (lo hi : list Q) (p : Pixel) : bool :=
  let '(h, s, v) := p in
  let low i := saturate cv (ColorRange.chan lo i) in
  let high i := saturate cv (ColorRange.chan hi i) in
  ((low 0%nat <=? h) && (h <=? high 0%nat) &&
   (low 1%nat <=? s) && (s <=? high 1%nat) &&
   (low 2%nat <=? v) && (v <=? high 2%nat))%Z.

(** [inRange(m, lowMat, highMat, mask)] with both bound matrices filled
    with one scalar each. *)
Definition inRange (cv : Collaborator) (m : Mat) (lo hi : list Q) : Mask :=
  map (map (pixel_in_range cv lo hi)) m.

Definition count_true (row : list bool) : nat := length (filter (fun b => b) row).

(** [countNonZero(mask)] *)
Definition countNonZero (mask : Mask) : Z :=
  Z.of_nat (list_sum (map count_true mask)).

(** A mask with no pixel set. *)
Definition blank (mask : Mask) : Prop :=
  forall row, In row mask -> forall b, In b row -> b = false.

End Cv.

Local Open Scope eff_scope.

(** ** Profile Builder, fixed target colours (visionCalibration, the
    revision whose profile carries [bounds] and [spatial]) *)

Module Calibration.
Import ColorRange Eff Cv.

(** [normalizedBox: { x, y, w, h }] *)
Record Box : Type := mkBox { nb_x : Q; nb_y : Q; nb_w : Q; nb_h : Q }.

Record Spatial : Type := mkSpatial { normalizedBox : Box; aspectRatio : Q }.

Record Bounds : Type := mkBounds {
  dark : HSVRange;
  light : HSVRange;
  white : HSVRange
}.

Record VisionProfile : Type := mkProfile { bounds : Bounds; spatial : Spatial }.

(** The reference image as [cv.imread] sees it: [None] when the read
    throws. *)
Definition HTMLImageElement : Type := option Frame.

(** The initial value of [spatial]. *)
Definition zero_spatial : Spatial :=
  {| normalizedBox := mkBox 0 0 0 0; aspectRatio := 0 |}.

(** The loop over the contours that keeps the largest one:
    [if (area > maxArea) { maxArea = area; bestRect = boundingRect(cnt) }]. *)
Fixpoint largest (contours : list Contour) (maxArea : Q) (bestRect : option Rect)
  : Q * option Rect :=
  match contours with
  | [] => (maxArea, bestRect)
  | cnt :: rest =>
      let area := contourArea cnt in
      if Js.gtb area maxArea
      then largest rest area (Some (boundingRect cnt))
      else largest rest maxArea bestRect
  end.

(** The body of the [try] block: the geometry of the menu body.  The
    quotients are taken in [Q]: a rectangle that is kept has an area above
    100, and the image it was found in is not empty. *)
Definition find_geometry (cv : Collaborator) (src : Frame) (darkBounds : HSVRange)
  : M Spatial :=
  hsv <- cv_call (cvtColorHSV cv src) ;;
  let mask := inRange cv hsv (lower darkBounds) (upper darkBounds) in
  let contours := findContours cv mask in
  let '(maxArea, bestRect) := largest contours 0 None in
  match bestRect with
  | Some r =>
      if Js.gtb maxArea 100 then
        ret {| normalizedBox :=
                 {| nb_x := inject_Z (x r) / inject_Z (cols src);
                    nb_y := inject_Z (y r) / inject_Z (rows src);
                    nb_w := inject_Z (width r) / inject_Z (cols src);
                    nb_h := inject_Z (height r) / inject_Z (rows src) |};
               aspectRatio := inject_Z (width r) / inject_Z (height r) |}
      else console WarnNoMenuBackground ;;; ret zero_spatial
  | None => console WarnNoMenuBackground ;;; ret zero_spatial
  end.

Definition whiteBounds : HSVRange :=
  {| lower := [0; 0; 180; 0]; upper := [180; 60; 255; 255] |}.

Definition calibrateReference (cv : option Collaborator) (image : HTMLImageElement)
  : M VisionProfile :=
  match cv with
  | None => throw OpenCVNotLoaded
  | Some cv =>
      let darkBounds := getHsvRange MENU_DARK (mkTol 10 50 50) in
      let lightBounds := getHsvRange MENU_LIGHT (mkTol 10 50 50) in
      src <- cv_call image ;;
      spatial <- try_catch (find_geometry cv src darkBounds)
                   (fun _ => console ErrorCalibration ;;; ret zero_spatial) ;;
      ret {| bounds := {| dark := darkBounds; light := lightBounds; white := whiteBounds |};
             spatial := spatial |}
  end.

(** The colour ranges of every profile that [calibrateReference]
    returns. *)
Definition fixed_bounds : Bounds :=
  {| dark := getHsvRange MENU_DARK (mkTol 10 50 50);
     light := getHsvRange MENU_LIGHT (mkTol 10 50 50);
     white := whiteBounds |}.

End Calibration.

(** ** Profile Builder, dominant hue (visionCalibration, the revision whose
    profile carries [hsvBounds] and [geometry]) *)

Module CalibrationHue.
Import ColorRange Eff Cv.

Record Geometry : Type := mkGeometry {
  aspectRatio : Q;
  coverageRatio : Q;
  width : Q;
  height : Q
}.

Record VisionProfile : Type := mkProfile { hsvBounds : HSVRange; geometry : Geometry }.

Definition zero_geometry : Geometry := mkGeometry 0 0 0 0.

(** The hues of the pixels that [threshold(sat, satMask, 50, 255,
    THRESH_BINARY)] keeps: saturation above 50. *)
Definition saturated_hues (roi : Mat) : list Z :=
  map (fun p : Pixel => fst (fst p))
      (filter (fun p : Pixel => (50 <? snd (fst p))%Z) (concat roi)).

(** [cv.mean(hue, satMask)[0]]: the mean over the masked pixels, 0 when
    the mask is empty. *)
Definition mean_hue (roi : Mat) : Q :=
  match saturated_hues roi with
  | [] => 0
  | hs => inject_Z (fold_right Z.add 0%Z hs) / inject_Z (Z.of_nat (length hs))
  end.

(** Step 2: the centre half of the image. *)
Definition roiRect (hsv : Mat) : Rect :=
  mkRect (Js.floor (inject_Z (mat_cols hsv) * (1 # 4)))
         (Js.floor (inject_Z (mat_rows hsv) * (1 # 4)))
         (Js.floor (inject_Z (mat_cols hsv) * (1 # 2)))
         (Js.floor (inject_Z (mat_rows hsv) * (1 # 2))).

(** Step 4: the bounds around the dominant hue, [hueDelta = 10]. *)
Definition strict_bounds (dominantHue : Q) : HSVRange :=
  let hueDelta := 10 in
  let hMin := Qmax 0 (dominantHue - hueDelta) in
  let hMax := Qmin 180 (dominantHue + hueDelta) in
  {| lower := [hMin; 50; 50; 0]; upper := [hMax; 255; 255; 255] |}.

(** Step 6: the profile data of the best rectangle. *)
Definition measure (maxArea : Q) (bestRect : option Rect) (totalArea : Z) : M Geometry :=
  match bestRect with
  | Some r =>
      if Js.gtb maxArea 0 then
        ret {| aspectRatio := inject_Z (Cv.width r) / inject_Z (Cv.height r);
               coverageRatio := maxArea / inject_Z totalArea;
               width := inject_Z (Cv.width r);
               height := inject_Z (Cv.height r) |}
      else console WarnNoTargetObject ;;; ret zero_geometry
  | None => console WarnNoTargetObject ;;; ret zero_geometry
  end.

(** No [try] in this revision: what the collaborator throws leaves the
    function. *)
Definition calibrateReference
  (cv : option Collaborator) (image : Calibration.HTMLImageElement)
  : M VisionProfile :=
  match cv with
  | None => throw OpenCVNotLoaded
  | Some cv =>
      src <- cv_call image ;;
      hsv <- cv_call (cvtColorHSV cv src) ;;
      roi <- cv_call (Cv.roi hsv (roiRect hsv)) ;;
      let dominantHue := mean_hue roi in
      let bounds := strict_bounds dominantHue in
      let maskFull := inRange cv hsv (lower bounds) (upper bounds) in
      let contours := findContours cv maskFull in
      let totalArea := (cols src * rows src)%Z in
      let '(maxArea, bestRect) := Calibration.largest contours 0 None in
      geometry <- measure maxArea bestRect totalArea ;;
      ret {| hsvBounds := bounds; geometry := geometry |}
  end.

End CalibrationHue.

(** ** Frame Scanner, overlap policy (visionDetection, the revision with
    [calculateIoU] and [debugMode]) *)

Module DetectionIoU.
Import ColorRange Eff Cv Calibration.
Local Open Scope st_scope.

Definition calculateIoU (rectA rectB : Rect) : Q :=
  let xA := Z.max (x rectA) (x rectB) in
  let yA := Z.max (y rectA) (y rectB) in
  let xB := Z.min (x rectA + width rectA) (x rectB + width rectB) in
  let yB := Z.min (y rectA + height rectA) (y rectB + height rectB) in
  let interW := Z.max 0 (xB - xA) in
  let interH := Z.max 0 (yB - yA) in
  if ((interW <=? 0) || (interH <=? 0))%Z then 0
  else
    let interArea := (interW * interH)%Z in
    let areaA := (width rectA * height rectA)%Z in
    let areaB := (width rectB * height rectB)%Z in
    let unionArea := (areaA + areaB - interArea)%Z in
    if (0 <? unionArea)%Z then inject_Z interArea / inject_Z unionArea else 0.

(** Step 1: the normalized reference box projected onto the frame,
    [Math.floor(nb.x * fw)]: the product is rounded before it is floored. *)
Definition project (nb : Box) (fw fh : Z) : Rect :=
  {| x := Js.floor (Js.mul64 (nb_x nb) (inject_Z fw));
     y := Js.floor (Js.mul64 (nb_y nb) (inject_Z fh));
     width := Js.floor (Js.mul64 (nb_w nb) (inject_Z fw));
     height := Js.floor (Js.mul64 (nb_h nb) (inject_Z fh)) |}.

(** The spatial lock rejects: [if (iou < 0.3) continue]. *)
Definition spatial_reject (rect expectedRect : Rect) : bool :=
  Js.ltb (calculateIoU rect expectedRect) (3 # 10).

(** The fraction of the pixels of [roi] that lie in a range, over the
    area of the rectangle: [countNonZero(mask) / area]. *)
Definition density (cv : Collaborator) (roi : Mat) (range : HSVRange) (area : Z) : Js.num :=
  Js.div (inject_Z (countNonZero (inRange cv roi (lower range) (upper range))))
         (inject_Z area).

(** [lightRatio > 0.01 && whiteRatio > 0.01] *)
Definition triad_rule (lightRatio whiteRatio : Js.num) : bool :=
  Js.ngtb lightRatio (1 # 100) && Js.ngtb whiteRatio (1 # 100).

(** Step 4, the body of the inner [try].  [true] is [break]: the triad
    rule holds, [detected] is set, and of the seven matrices of the
    candidate all are deleted but only [maskLight], [maskWhite] and [roi]
    are set to [null]. *)
Definition triad_check (cv : Collaborator) (hsv : Mat) (profile : VisionProfile)
  (debugMode : bool) (rect : Rect) : Scope.ST bool :=
  roi <- Scope.lift (cv_call (Cv.roi hsv rect)) ;;
  Scope.assign Scope.roi ;;;
  let area := (width rect * height rect)%Z in
  Scope.assign Scope.lowL ;;;
  Scope.assign Scope.highL ;;;
  Scope.assign Scope.maskLight ;;;
  let lightRatio := density cv roi (light (bounds profile)) area in
  Scope.assign Scope.lowW ;;;
  Scope.assign Scope.highW ;;;
  Scope.assign Scope.maskWhite ;;;
  let whiteRatio := density cv roi (white (bounds profile)) area in
  Scope.when debugMode (Scope.lift (console (LogTriadDensity lightRatio whiteRatio))) ;;;
  if triad_rule lightRatio whiteRatio then
    Scope.set_detected ;;;
    Scope.delete Scope.maskLight ;;; Scope.delete Scope.maskWhite ;;;
    Scope.delete Scope.lowL ;;; Scope.delete Scope.highL ;;;
    Scope.delete Scope.lowW ;;; Scope.delete Scope.highW ;;;
    Scope.delete Scope.roi ;;;
    Scope.clear Scope.maskLight ;;; Scope.clear Scope.maskWhite ;;;
    Scope.clear Scope.roi ;;;
    Scope.ret true
  else
    Scope.release Scope.maskLight ;;;
    Scope.release Scope.maskWhite ;;;
    Scope.release Scope.lowL ;;;
    Scope.release Scope.highL ;;;
    Scope.release Scope.lowW ;;;
    Scope.release Scope.highW ;;;
    Scope.release Scope.roi ;;;
    Scope.ret false.

(** The inner [try] with its [catch]: a check that throws is logged, and
    the loop goes on. *)
Definition checked (cv : Collaborator) (hsv : Mat) (profile : VisionProfile)
  (debugMode : bool) (rect : Rect) : Scope.ST bool :=
  Scope.try_catch (triad_check cv hsv profile debugMode rect)
    (fun _ => Scope.lift (console WarnRoiCheck) ;;; Scope.ret false).

(** Step 3 and 4: the loop over the contours.  A rejected candidate, or
    one whose check threw, is followed by the next one; the loop ends at
    [break] or with the last contour. *)
Fixpoint scan_contours (cv : Collaborator) (hsv : Mat) (profile : VisionProfile)
  (expectedRect : Rect) (debugMode : bool) (contours : list Contour) : Scope.ST unit :=
  match contours with
  | [] => Scope.ret tt
  | contour :: rest =>
      let rect := boundingRect contour in
      if spatial_reject rect expectedRect
      then scan_contours cv hsv profile expectedRect debugMode rest
      else
        Scope.when debugMode
          (Scope.lift
             (console (LogSpatialMatch (calculateIoU rect expectedRect) (x rect) (y rect)))) ;;;
        break <- checked cv hsv profile debugMode rect ;;
        if break : bool then Scope.ret tt
        else scan_contours cv hsv profile expectedRect debugMode rest
  end.

(** The body of the outer [try]. *)
Definition scan_body (cv : Collaborator) (srcFrame : option Frame)
  (profile : VisionProfile) (debugMode : bool) : Scope.ST unit :=
  frame <- match srcFrame with
           | Some f => Scope.ret f
           | None => Scope.throw TypeError        (* srcFrame.cols *)
           end ;;
  let expectedRect :=
    project (normalizedBox (spatial profile)) (cols frame) (rows frame) in
  Scope.assign Scope.hsv ;;;
  hsv <- Scope.lift (cv_call (cvtColorHSV cv frame)) ;;
  Scope.assign Scope.lowP ;;;
  Scope.assign Scope.highP ;;;
  Scope.assign Scope.maskDark ;;;
  let maskDark :=
    inRange cv hsv (lower (dark (bounds profile))) (upper (dark (bounds profile))) in
  Scope.assign Scope.contours ;;;
  Scope.assign Scope.hierarchy ;;;
  let contours := findContours cv maskDark in
  scan_contours cv hsv profile expectedRect debugMode contours.

(** The [finally] block. *)
Definition cleanup : Scope.ST unit :=
  Scope.delete_all
    [Scope.hsv; Scope.maskDark; Scope.contours; Scope.hierarchy; Scope.lowP; Scope.highP;
     Scope.roi; Scope.maskLight; Scope.maskWhite;
     Scope.lowL; Scope.highL; Scope.lowW; Scope.highW].

(** [scanFrame(srcFrame, profile, debugMode)].  [srcFrame] is [any]:
    [None] is a value that is not a matrix. *)
Definition scanFrame (cv : option Collaborator) (srcFrame : option Frame)
  (profile : VisionProfile) (debugMode : bool) : M bool :=
  match cv with
  | None => ret false
  | Some cv =>
      Scope.run
        (Scope.try_finally
           (Scope.try_catch (scan_body cv srcFrame profile debugMode)
              (fun _ => Scope.lift (console ErrorScanFrame)))
           cleanup ;;;
         Scope.get_detected)
  end.

(** The content verification of one rectangle passes: the inner [try]
    reaches [detected = true]. *)
Definition content_ok (cv : Collaborator) (hsv : Mat) (profile : VisionProfile)
  (rect : Rect) : bool :=
  match Cv.roi hsv rect with
  | Some roi =>
      let area := (width rect * height rect)%Z in
      triad_rule (density cv roi (light (bounds profile)) area)
                 (density cv roi (white (bounds profile)) area)
  | None => false
  end.

(** A candidate passes the spatial filter and the content verification. *)
Definition passes (cv : Collaborator) (hsv : Mat) (profile : VisionProfile)
  (expectedRect : Rect) (contour : Contour) : bool :=
  negb (spatial_reject (boundingRect contour) expectedRect) &&
  content_ok cv hsv profile (boundingRect contour).

(** The pixels of an image that lie in a range. *)
Definition matching (cv : Collaborator) (m : Mat) (range : HSVRange) : list Pixel :=
  filter (pixel_in_range cv (lower range) (upper range)) (concat m).

(** The variables of one candidate. *)
Definition triad_vars : list Scope.Var :=
  [Scope.roi; Scope.maskLight; Scope.maskWhite;
   Scope.lowL; Scope.highL; Scope.lowW; Scope.highW].

(** Those that the match path deletes and leaves set. *)
Definition left_set (v : Scope.Var) : bool :=
  match v with
  | Scope.lowL | Scope.highL | Scope.lowW | Scope.highW => true
  | _ => false
  end.

(** No variable of a candidate is set, as before the first candidate and
    after each one that is not a match. *)
Definition clean (s : Scope.Store) : Prop :=
  forall v, In v triad_vars -> Scope.refs s v = Scope.Null.

End DetectionIoU.

(** ** Frame Scanner, deviation policy (visionDetection, the revision that
    compares the normalized box axis by axis) *)

Module DetectionDeviation.
Import ColorRange Eff Cv Calibration.
Local Open Scope st_scope.

(** [Math.abs(rect.k / frame.k - target.k)] for one axis: the quotient
    and the difference are rounded. *)
Definition axis_diff (candidate frameSize : Z) (target : Q) : Js.num :=
  Js.nabs (Js.nsub64 (Js.div64 (inject_Z candidate) (inject_Z frameSize)) target).

(** The deviation that the engine computes, for a frame size that is not
    0. *)
Definition computed_deviation (candidate frameSize : Z) (target : Q) : Q :=
  Qabs (Js.double (Js.quot64 (inject_Z candidate) (inject_Z frameSize) - Js.double target)).

(** The deviation itself, without rounding. *)
Definition deviation (candidate frameSize : Z) (target : Q) : Q :=
  Qabs (inject_Z candidate / inject_Z frameSize - target).

(** The literal [0.15]. *)
Definition tolerance : Q := Js.double (15 # 100).

(** The spatial lock rejects:
    [xDiff > 0.15 || yDiff > 0.15 || wDiff > 0.15 || hDiff > 0.15]. *)
Definition spatial_reject (rect : Rect) (frame : Frame) (target : Box) : bool :=
  let xDiff := axis_diff (x rect) (cols frame) (nb_x target) in
  let yDiff := axis_diff (y rect) (rows frame) (nb_y target) in
  let wDiff := axis_diff (width rect) (cols frame) (nb_w target) in
  let hDiff := axis_diff (height rect) (rows frame) (nb_h target) in
  Js.ngtb xDiff tolerance || Js.ngtb yDiff tolerance ||
  Js.ngtb wDiff tolerance || Js.ngtb hDiff tolerance.

(** Step 3, the body of the inner [try].  [true] is [break], with the
    same cleanup as in the revision with the overlap policy: all seven
    matrices deleted, three variables set to [null]. *)
Definition triad_check (cv : Collaborator) (hsv : Mat) (profile : VisionProfile)
  (rect : Rect) : Scope.ST bool :=
  roi <- Scope.lift (cv_call (Cv.roi hsv rect)) ;;
  Scope.assign Scope.roi ;;;
  let area := (width rect * height rect)%Z in
  Scope.assign Scope.lowL ;;;
  Scope.assign Scope.highL ;;;
  Scope.assign Scope.maskLight ;;;
  let lightRatio := DetectionIoU.density cv roi (light (bounds profile)) area in
  Scope.assign Scope.lowW ;;;
  Scope.assign Scope.highW ;;;
  Scope.assign Scope.maskWhite ;;;
  let whiteRatio := DetectionIoU.density cv roi (white (bounds profile)) area in
  if DetectionIoU.triad_rule lightRatio whiteRatio then
    Scope.set_detected ;;;
    Scope.delete Scope.maskLight ;;; Scope.delete Scope.maskWhite ;;;
    Scope.delete Scope.lowL ;;; Scope.delete Scope.highL ;;;
    Scope.delete Scope.lowW ;;; Scope.delete Scope.highW ;;;
    Scope.delete Scope.roi ;;;
    Scope.clear Scope.maskLight ;;; Scope.clear Scope.maskWhite ;;;
    Scope.clear Scope.roi ;;;
    Scope.ret true
  else
    Scope.delete Scope.maskLight ;;; Scope.clear Scope.maskLight ;;;
    Scope.delete Scope.maskWhite ;;; Scope.clear Scope.maskWhite ;;;
    Scope.delete Scope.lowL ;;; Scope.clear Scope.lowL ;;;
    Scope.delete Scope.highL ;;; Scope.clear Scope.highL ;;;
    Scope.delete Scope.lowW ;;; Scope.clear Scope.lowW ;;;
    Scope.delete Scope.highW ;;; Scope.clear Scope.highW ;;;
    Scope.delete Scope.roi ;;; Scope.clear Scope.roi ;;;
    Scope.ret false.

(** The inner [try] with its [catch]. *)
Definition checked (cv : Collaborator) (hsv : Mat) (profile : VisionProfile)
  (rect : Rect) : Scope.ST bool :=
  Scope.try_catch (triad_check cv hsv profile rect)
    (fun _ => Scope.lift (console WarnRoiCheck) ;;; Scope.ret false).

Fixpoint scan_contours (cv : Collaborator) (hsv : Mat) (profile : VisionProfile)
  (frame : Frame) (contours : list Contour) : Scope.ST unit :=
  match contours with
  | [] => Scope.ret tt
  | contour :: rest =>
      let rect := boundingRect contour in
      if spatial_reject rect frame (normalizedBox (spatial profile))
      then scan_contours cv hsv profile frame rest
      else
        break <- checked cv hsv profile rect ;;
        if break : bool then Scope.ret tt
        else scan_contours cv hsv profile frame rest
  end.

(** The body of the outer [try]. *)
Definition scan_body (cv : Collaborator) (srcFrame : option Frame)
  (profile : VisionProfile) : Scope.ST unit :=
  Scope.assign Scope.hsv ;;;
  frame <- match srcFrame with
           | Some f => Scope.ret f
           | None => Scope.throw CvException      (* cvtColor on a non-matrix *)
           end ;;
  hsv <- Scope.lift (cv_call (cvtColorHSV cv frame)) ;;
  Scope.assign Scope.lowP ;;;
  Scope.assign Scope.highP ;;;
  Scope.assign Scope.maskDark ;;;
  let maskDark :=
    inRange cv hsv (lower (dark (bounds profile))) (upper (dark (bounds profile))) in
  Scope.assign Scope.contours ;;;
  Scope.assign Scope.hierarchy ;;;
  let contours := findContours cv maskDark in
  scan_contours cv hsv profile frame contours.

Definition scanFrame (cv : option Collaborator) (srcFrame : option Frame)
  (profile : VisionProfile) : M bool :=
  match cv with
  | None => ret false
  | Some cv =>
      Scope.run
        (Scope.try_finally
           (Scope.try_catch (scan_body cv srcFrame profile)
              (fun _ => Scope.lift (console ErrorScanFrame)))
           DetectionIoU.cleanup ;;;
         Scope.get_detected)
  end.

(** A candidate passes the spatial filter and the content verification. *)
Definition passes (cv : Collaborator) (hsv : Mat) (profile : VisionProfile)
  (frame : Frame) (contour : Contour) : bool :=
  negb (spatial_reject (boundingRect contour) frame (normalizedBox (spatial profile))) &&
  DetectionIoU.content_ok cv hsv profile (boundingRect contour).

End DetectionDeviation.

(** ** Frame Scanner, area, aspect ratio and white density
    (src/utils/visionDetection.ts) *)

Module DetectionDensity.
Import ColorRange Eff Cv CalibrationHue.
Local Open Scope st_scope.

(** [interface ScanConfig { matchingThreshold: number }] *)
Record ScanConfig : Type := mkConfig { matchingThreshold : Q }.

Definition default_config : ScanConfig := mkConfig (5 # 100).

(** [Math.abs(currentAspectRatio - targetAspectRatio) / targetAspectRatio > 0.3]:
    the two quotients and the difference are rounded. *)
Definition shape_reject (rect : Rect) (targetAspectRatio : Q) : bool :=
  let currentAspectRatio :=
    Js.div64 (inject_Z (Cv.width rect)) (inject_Z (Cv.height rect)) in
  let deviation :=
    Js.ndiv64 (Js.nabs (Js.nsub64 currentAspectRatio targetAspectRatio))
              targetAspectRatio in
  Js.ngtb deviation (Js.double (3 # 10)).

(** [area < minArea], with [minArea = frameArea * coverageRatio * 0.5]
    as the engine computes it. *)
Definition area_reject (area minArea : Q) : bool := Js.ltb (Js.double area) minArea.

(** The white pixels of the rectangle over the area of the contour
    exceed the threshold: [density > config.matchingThreshold], the
    quotient rounded. *)
Definition white_rule (cv : Collaborator) (roiWhite : Mat) (config : ScanConfig)
  (area : Q) : bool :=
  let maskWhite := inRange cv roiWhite [0; 0; 180; 0] [180; 60; 255; 255] in
  let whitePixels := countNonZero maskWhite in
  let density := Js.div64 (inject_Z whitePixels) area in
  Js.ngtb density (Js.double (matchingThreshold config)).

(** Step D, the body of the inner [try]: the four matrices of the
    candidate are deleted and their variables set to [null] before the
    verdict.  [true] is [detected = true; break]. *)
Definition white_check (cv : Collaborator) (hsv : Mat) (config : ScanConfig)
  (rect : Rect) (area : Q) : Scope.ST bool :=
  roiWhite <- Scope.lift (cv_call (Cv.roi hsv rect)) ;;
  Scope.assign Scope.roiWhite ;;;
  Scope.assign Scope.lowW ;;;
  Scope.assign Scope.highW ;;;
  Scope.assign Scope.maskWhite ;;;
  Scope.delete Scope.maskWhite ;;; Scope.clear Scope.maskWhite ;;;
  Scope.delete Scope.lowW ;;; Scope.clear Scope.lowW ;;;
  Scope.delete Scope.highW ;;; Scope.clear Scope.highW ;;;
  Scope.delete Scope.roiWhite ;;; Scope.clear Scope.roiWhite ;;;
  if white_rule cv roiWhite config area then
    Scope.set_detected ;;;
    Scope.ret true
  else Scope.ret false.

(** The inner [try] with its [catch], which logs and releases what the
    check left. *)
Definition checked (cv : Collaborator) (hsv : Mat) (config : ScanConfig)
  (rect : Rect) (area : Q) : Scope.ST bool :=
  Scope.try_catch (white_check cv hsv config rect area)
    (fun _ =>
       Scope.lift (console WarnRoiCheck) ;;;
       Scope.release Scope.maskWhite ;;;
       Scope.release Scope.lowW ;;;
       Scope.release Scope.highW ;;;
       Scope.release Scope.roiWhite ;;;
       Scope.ret false).

Fixpoint scan_contours (cv : Collaborator) (hsv : Mat) (profile : VisionProfile)
  (config : ScanConfig) (minArea : Q) (contours : list Contour) : Scope.ST unit :=
  match contours with
  | [] => Scope.ret tt
  | contour :: rest =>
      let area := contourArea contour in
      let rect := boundingRect contour in
      if area_reject area minArea
      then scan_contours cv hsv profile config minArea rest
      else if shape_reject rect (aspectRatio (geometry profile))
      then scan_contours cv hsv profile config minArea rest
      else
        break <- checked cv hsv config rect area ;;
        if break : bool then Scope.ret tt
        else scan_contours cv hsv profile config minArea rest
  end.

(** The body of the outer [try]. *)
Definition scan_body (cv : Collaborator) (srcFrame : option Frame)
  (profile : VisionProfile) (config : ScanConfig) : Scope.ST unit :=
  Scope.assign Scope.hsv ;;;
  frame <- match srcFrame with
           | Some f => Scope.ret f
           | None => Scope.throw CvException      (* cvtColor on a non-matrix *)
           end ;;
  hsv <- Scope.lift (cv_call (cvtColorHSV cv frame)) ;;
  Scope.assign Scope.lowP ;;;
  Scope.assign Scope.highP ;;;
  Scope.assign Scope.maskPurple ;;;
  let maskPurple := inRange cv hsv (lower (hsvBounds profile)) (upper (hsvBounds profile)) in
  Scope.assign Scope.contours ;;;
  Scope.assign Scope.hierarchy ;;;
  let contours := findContours cv maskPurple in
  let frameArea := (cols frame * rows frame)%Z in
  let expectedArea := Js.mul64 (inject_Z frameArea) (coverageRatio (geometry profile)) in
  let minArea := Js.mul64 expectedArea (1 # 2) in
  scan_contours cv hsv profile config minArea contours.

(** The [finally] block. *)
Definition cleanup : Scope.ST unit :=
  Scope.delete_all
    [Scope.hsv; Scope.maskPurple; Scope.lowP; Scope.highP; Scope.contours; Scope.hierarchy;
     Scope.roiWhite; Scope.maskWhite; Scope.lowW; Scope.highW].

Definition scanFrame (cv : option Collaborator) (srcFrame : option Frame)
  (profile : VisionProfile) (config : ScanConfig) : M bool :=
  match cv with
  | None => ret false
  | Some cv =>
      Scope.run
        (Scope.try_finally
           (Scope.try_catch (scan_body cv srcFrame profile config)
              (fun _ => Scope.lift (console ErrorScanFrame)))
           cleanup ;;;
         Scope.get_detected)
  end.

(** The content verification of one candidate passes. *)
Definition content_ok (cv : Collaborator) (hsv : Mat) (config : ScanConfig)
  (rect : Rect) (area : Q) : bool :=
  match Cv.roi hsv rect with
  | Some roiWhite => white_rule cv roiWhite config area
  | None => false
  end.

(** A candidate passes the area check, the shape check and the content
    verification. *)
Definition passes (cv : Collaborator) (hsv : Mat) (profile : VisionProfile)
  (config : ScanConfig) (minArea : Q) (contour : Contour) : bool :=
  negb (area_reject (contourArea contour) minArea) &&
  negb (shape_reject (boundingRect contour) (aspectRatio (geometry profile))) &&
  content_ok cv hsv config (boundingRect contour) (contourArea contour).

(** The variables of one candidate. *)
Definition white_vars : list Scope.Var :=
  [Scope.roiWhite; Scope.maskWhite; Scope.lowW; Scope.highW].

(** No variable of a candidate is set. *)
Definition white_clean (s : Scope.Store) : Prop :=
  forall v, In v white_vars -> Scope.refs s v = Scope.Null.

End DetectionDensity.

Local Close Scope eff_scope.

(** ** Scan Orchestrator on the main thread ([processVideo] with the
    [AbortController]) *)

Module Engine.
Import Eff Cv.

(** [interface DetectionEvent] *)
Record DetectionEvent : Type := mkEvent { timestamp : Q; confidence : Q }.

Inductive Status : Type :=
| idle | initializing | calibrating | processing | completed | error.

(** [interface VisionState] *)
Record VisionState : Type := mkState {
  isProcessing : bool;
  progress : Z;
  status : Status;
  detections : list DetectionEvent
}.

(** The state of the hook before the first scan. *)
Definition initial_state : VisionState := mkState false 0 idle [].

(** What a run leaves behind, in order: every [setState] of its own, with
    the state it produces, and every [await], numbered from 0. *)
Inductive Item : Type :=
| Update (s : VisionState)
| Suspend (n : nat).

(** The state of the hook, the trace of the run so far and the number of
    [await]s that have completed. *)
Record World : Type := mkWorld {
  state : VisionState;
  trace : list Item;
  awaits : nat
}.

(** How a piece of the asynchronous function ends.  [Unfinished] belongs
    to the model only: the fuel of the loop ran out. *)
Inductive Result (A : Type) : Type :=
| Done (a : A)
| Raised
| Unfinished.
Arguments Done {A} a.
Arguments Raised {A}.
Arguments Unfinished {A}.

Definition Task (A : Type) : Type := World -> Result A * World.

Definition ret {A} (a : A) : Task A := fun w => (Done a, w).

Definition raise {A} : Task A := fun w => (Raised, w).

Definition unfinished {A} : Task A := fun w => (Unfinished, w).

Definition bind {A B} (m : Task A) (k : A -> Task B) : Task B :=
  fun w =>
    match m w with
    | (Done a, w') => k a w'
    | (Raised, w') => (Raised, w')
    | (Unfinished, w') => (Unfinished, w')
    end.

(** [try { m } catch (error) { handler }] *)
Definition try_catch {A} (m : Task A) (handler : Task A) : Task A :=
  fun w =>
    match m w with
    | (Raised, w') => handler w'
    | other => other
    end.

(** The world after [setState(prev => f prev)]. *)
Definition updated (f : VisionState -> VisionState) (w : World) : World :=
  let s := f (state w) in
  {| state := s; trace := trace w ++ [Update s]; awaits := awaits w |}.

Definition setState (f : VisionState -> VisionState) : Task unit :=
  fun w => (Done tt, updated f w).

(** A video that has loaded: its duration, and the frame that seeking to
    a time, drawing the frame and [cv.matFromImageData] give ([None] when
    one of them throws). *)
Record Video : Type := mkVideo {
  duration : Q;
  grab : Q -> option Frame
}.

(** Who calls [abort()] on the controller of a run: the next call of
    [processVideo], or the cleanup of the hook when it is unmounted;
    nothing else holds the controller.  The next call has replaced the
    state of the hook ([detections: []] with it) before it calls
    [abort()], and the session that it starts goes on while the run that
    it cancelled is suspended: [NextScan] carries [isProcessing],
    [progress] and [status] of the hook when that run resumes.  The list
    of events is still the empty one, as no scan reports a match. *)
Inductive Canceller : Type :=
| NextScan (running : bool) (progress : Z) (status : Status)
| Unmount.

(** What the run meets outside the function. *)
Record Env : Type := mkEnv {
  (** the reference image once loaded, [None] for [onerror] *)
  image_load : option Calibration.HTMLImageElement;
  (** whether [canvas.getContext('2d')] gives a context *)
  has_context : bool;
  (** the video once [onloadeddata] fires, [None] for [onerror] *)
  video_load : option Video;
  (** the [await] during which [abort()] is called on this run's
      controller, if it ever is; other code runs only while the function
      is suspended *)
  abort_at : option nat;
  (** by whom *)
  abort_by : Canceller
}.

(** The state of the hook after the [await] that is about to complete:
    the one of the new session, if the next call came during this
    [await]. *)
Definition intruded (env : Env) (w : World) : VisionState :=
  match abort_at env, abort_by env with
  | Some a, NextScan running progress status =>
      if (a =? awaits w)%nat then mkState running progress status [] else state w
  | _, _ => state w
  end.

(** The world when an [await] has completed. *)
Definition suspended (env : Env) (w : World) : World :=
  {| state := intruded env w;
     trace := trace w ++ [Suspend (awaits w)];
     awaits := S (awaits w) |}.

(** [await promise]: the function is suspended; the promise resolves with
    a value ([Some]) or rejects ([None]). *)
Definition await {A} (env : Env) (promise : option A) : Task A :=
  fun w =>
    match promise with
    | Some a => (Done a, suspended env w)
    | None => (Raised, suspended env w)
    end.

(** A synchronous call that returns or throws; its console output is not
    part of the trace. *)
Definition call {A} (m : Eff.M A) : Task A :=
  fun w =>
    match Eff.outcome m with
    | Returned a => (Done a, w)
    | Thrown _ => (Raised, w)
    end.

(** [signal.aborted]: [abort()] was called during an [await] that has
    completed. *)
Definition aborted (env : Env) (w : World) : bool :=
  match abort_at env with
  | Some a => (a <? awaits w)%nat
  | None => false
  end.

Definition signal_aborted (env : Env) : Task bool :=
  fun w => (Done (aborted env w), w).

Definition interval : Q := 1 # 2.

Declare Scope task_scope.
Delimit Scope task_scope with task.
Notation "x <- m ;; k" := (bind m (fun x => k))
  (at level 61, m at next level, right associativity) : task_scope.
Notation "m ;;; k" := (bind m (fun _ => k))
  (at level 61, right associativity) : task_scope.
Local Open Scope task_scope.

(** One pass through the body of the loop after the second abort check:
    draw, scan, record, report progress, yield.  Gives the detections
    array after the pass.  What [scanFrame] throws leaves the loop for
    the [catch] block. *)
Definition process_frame (cv : option Collaborator) (env : Env) (video : Video)
  (profile : Calibration.VisionProfile) (currentTime : Q)
  (newDetections : list DetectionEvent) : Task (list DetectionEvent) :=
  mat <- match grab video currentTime with
         | Some f => ret f
         | None => raise
         end ;;
  isDetected <- call (DetectionIoU.scanFrame cv (Some mat) profile true) ;;
  newDetections' <-
    (if isDetected : bool then
       let pushed := newDetections ++ [mkEvent currentTime 1] in
       setState (fun prev => mkState (isProcessing prev) (progress prev) (status prev) pushed) ;;;
       ret pushed
     else ret newDetections) ;;
  let progress' :=
    Z.min 100 (Js.round (Js.mul64 (Js.quot64 currentTime (duration video)) 100)) in
  setState (fun prev => mkState (isProcessing prev) progress' (status prev) (detections prev)) ;;;
  await env (Some tt) ;;;
  ret newDetections'.

(** [while (currentTime < duration) { ... currentTime += interval }].
    Ends with [Done] on [break] and when the condition fails. *)
Fixpoint scan_loop (fuel : nat) (cv : option Collaborator) (env : Env) (video : Video)
  (profile : Calibration.VisionProfile) (currentTime : Q)
  (newDetections : list DetectionEvent) : Task unit :=
  match fuel with
  | O => unfinished
  | S fuel' =>
      if Js.ltb currentTime (duration video) then
        aborted <- signal_aborted env ;;
        if aborted : bool then ret tt
        else
          await env (Some tt) ;;;                 (* seek, until 'seeked' *)
          aborted <- signal_aborted env ;;
          if aborted : bool then ret tt
          else
            newDetections' <- process_frame cv env video profile currentTime newDetections ;;
            scan_loop fuel' cv env video profile (currentTime + interval) newDetections'
      else ret tt
  end.

(** The body of the [try] block. *)
Definition run_scan (fuel : nat) (cv : option Collaborator) (env : Env) : Task unit :=
  setState (fun prev => mkState (isProcessing prev) (progress prev) calibrating (detections prev)) ;;;
  referenceImage <- await env (image_load env) ;;
  aborted <- signal_aborted env ;;
  if aborted : bool then ret tt
  else
    profile <- call (Calibration.calibrateReference cv referenceImage) ;;
    setState (fun prev => mkState (isProcessing prev) (progress prev) processing (detections prev)) ;;;
    (if has_context env then ret tt else raise) ;;;
    video <- await env (video_load env) ;;
    aborted <- signal_aborted env ;;
    if aborted : bool then ret tt
    else
      scan_loop fuel cv env video profile 0 [] ;;;
      aborted <- signal_aborted env ;;
      if negb aborted
      then setState (fun prev => mkState false 100 completed (detections prev))
      else ret tt.

(** The [catch] block. *)
Definition on_error (env : Env) : Task unit :=
  aborted <- signal_aborted env ;;
  if negb aborted
  then setState (fun prev => mkState false (progress prev) error (detections prev))
  else ret tt.

Definition processVideo (fuel : nat) (cv : option Collaborator) (env : Env) : Task unit :=
  match cv with
  | None =>
      setState (fun prev => mkState (isProcessing prev) (progress prev) error (detections prev))
  | Some _ =>
      setState (fun _ => mkState true 0 initializing []) ;;;
      try_catch (run_scan fuel cv env) (on_error env)
  end.

(** A run from a given state of the hook. *)
Definition start (prev : VisionState) : World :=
  {| state := prev; trace := []; awaits := 0 |}.

(** The states a trace went through, in order. *)
Fixpoint updates (items : list Item) : list VisionState :=
  match items with
  | [] => []
  | Update s :: rest => s :: updates rest
  | Suspend _ :: rest => updates rest
  end.


(** The timestamps grow along the list. *)
Definition increasing (events : list DetectionEvent) : Prop :=
  StronglySorted (fun a b => timestamp a < timestamp b) events.


(** [l1] is an initial segment of [l2]. *)
Definition extends {A} (l1 l2 : list A) : Prop := exists more, l2 = l1 ++ more.







(** No state of the world holds a Detection Event. *)
Definition quiet (w : World) : Prop :=
  Forall (fun s => detections s = []) (updates (trace w)) /\
  detections (state w) = [].

(** The result and the world of a task satisfy [Q]. *)
Definition wp {A} (m : Task A) (Q : Result A -> World -> Prop) (w : World) : Prop :=
  Q (fst (m w)) (snd (m w)).

(** The number of passes that a loop starting at [currentTime] can still
    make. *)
Definition passes_left (duration currentTime : Q) : Z :=
  Qceiling ((duration - currentTime) * 2).

(** Fuel for all the passes from [currentTime] on, and the last test of
    the loop condition. *)
Definition enough (fuel : nat) (duration currentTime : Q) : Prop :=
  (0 < fuel)%nat /\ (passes_left duration currentTime < Z.of_nat fuel)%Z.

(** Fuel for the whole run: for the loop over the video, if one loads. *)
Definition enough_fuel (env : Env) (fuel : nat) : Prop :=
  match video_load env with
  | Some video => enough fuel (duration video) 0
  | None => True
  end.

End Engine.

(** ** Scan Orchestrator with the worker (src/hooks/useVisionEngine.ts):
    the loop of [processNextFrame], the [seeked] handler and the handler of
    the worker's [FRAME_RESULT] *)

Module EngineWorker.
Import Engine.

(** The payload of a [FRAME_RESULT] message. *)
Record FrameResult : Type := mkResult {
  detected : bool;
  result_timestamp : Q;
  result_confidence : Q
}.

(** What [processNextFrame] does: finish, or seek to [currentTime]. *)
Inductive Next : Type :=
| Finished (s : VisionState)
| Seek (s : VisionState) (currentTime : Q).

Definition processNextFrame (duration currentTime : Q) (s : VisionState) : Next :=
  if Js.geb currentTime duration
  then Finished (mkState false 100 completed (detections s))
  else Seek s currentTime.

(** The two [setState] calls of [onWorkerMessage]. *)
Definition onWorkerMessage (duration : Q) (r : FrameResult) (s : VisionState)
  : VisionState :=
  let s1 :=
    if detected r
    then mkState (isProcessing s) (progress s) (status s)
           (detections s ++ [mkEvent (result_timestamp r) (result_confidence r)])
    else s in
  let progress' :=
    Z.min 100 (Js.round (Js.mul64 (Js.quot64 (result_timestamp r) duration) 100)) in
  mkState (isProcessing s1) progress' (status s1) (detections s1).

(** The chain of events from one [processNextFrame] to the end: each seek
    is answered by the worker's result for the frame at that time. *)
Fixpoint drive (fuel : nat) (duration : Q) (worker : Q -> FrameResult)
  (currentTime : Q) (s : VisionState) : option VisionState :=
  match fuel with
  | O => None
  | S fuel' =>
      match processNextFrame duration currentTime s with
      | Finished s' => Some s'
      | Seek s' t =>
          drive fuel' duration worker (currentTime + interval)
                (onWorkerMessage duration (worker t) s')
      end
  end.

End EngineWorker.

(** ** A small collaborator and sample data, for running the definitions *)

Module Fixture.
Import ColorRange Cv.

(** A stand-in for [cv]: frames already hold HSV triples in their first
    three channels (a frame without data does not convert), a scalar is
    rounded and clipped to 0..255, and a mask with a set pixel has one
    contour, whose bounding box is the whole image and whose area is the
    number of set pixels. *)
Definition clip (q : Q) : Z := Z.max 0 (Z.min 255 (Js.round q)).

Definition toy_cv : Collaborator :=
  {| cvtColorHSV := fun f =>
       match rgba f with
       | [] => None
       | rows => Some (map (map (fun p : Z * Z * Z * Z => fst p)) rows)
       end;
     saturate := clip;
     findContours := fun mask =>
       if (countNonZero mask =? 0)%Z then []
       else [mkContour (mkRect 0 0 (mat_cols mask) (mat_rows mask))
                       (inject_Z (countNonZero mask))] |}.

(** A frame of [h] rows and [w] columns filled with one pixel. *)
Definition solid (w h : nat) (p : Z * Z * Z * Z) : Frame :=
  mkFrame (Z.of_nat w) (Z.of_nat h) (repeat (repeat p w) h).

(** A pixel in none of the three colour ranges of the fixed profile. *)
Definition green : Z * Z * Z * Z := (60, 200, 200, 255)%Z.

(** The dark menu colour in OpenCV's HSV: hue 126, saturation 234,
    value 49. *)
Definition menu_dark : Z * Z * Z * Z := (126, 234, 49, 255)%Z.

(** The light menu colour (hue 130, saturation 248, value 139) and
    white. *)
Definition menu_light : Z * Z * Z * Z := (130, 248, 139, 255)%Z.
Definition text_white : Z * Z * Z * Z := (0, 0, 255, 255)%Z.

(** A pixel without colour: saturation 0. *)
Definition gray : Z * Z * Z * Z := (0, 0, 128, 255)%Z.

(** A frame with no data: the colour conversion throws on it. *)
Definition broken : Frame := mkFrame 0 0 [].

(** A 2 x 2 frame that shows the menu: two dark pixels, a light one and a
    white one. *)
Definition menu_frame : Frame :=
  mkFrame 2 2 [[menu_dark; menu_dark]; [menu_light; text_white]].

Definition menu_hsv : Mat :=
  [[(126, 234, 49); (126, 234, 49)]; [(130, 248, 139); (0, 0, 255)]]%Z.

(** A template and a candidate whose overlap is exactly 0.3: the
    candidate is a 3 x 10 strip of the 10 x 10 template. *)
Definition template_10 : Rect := mkRect 0 0 10 10.
Definition strip_3 : Rect := mkRect 0 0 3 10.

(** A 20 x 20 frame, a template and a candidate that deviates from it by
    exactly 0.15 on every axis: 3/20 against 0 and 8/20 against 0.25. *)
Definition frame_20 : Frame := solid 20 20 green.
Definition quarter_box : Calibration.Box := Calibration.mkBox 0 0 (1 # 4) (1 # 4).
Definition shifted : Rect := mkRect 3 3 8 8.

(** A template at the origin and a candidate whose four quotients are
    3/20. *)
Definition origin_box : Calibration.Box := Calibration.mkBox 0 0 0 0.
Definition near : Rect := mkRect 3 3 3 3.

(** Three contours on the 2 x 2 menu frame, in the order of the vector: a
    corner, the whole frame, and a box that reaches beyond the frame. *)
Definition corner : Contour := mkContour (mkRect 0 0 1 1) 1.
Definition body : Contour := mkContour (mkRect 0 0 2 2) 4.
Definition beyond : Contour := mkContour (mkRect 0 0 3 2) 6.

Definition menu_cv : Collaborator := yielding toy_cv [corner; body; beyond].

(** A 10 x 10 frame in the light menu colour with three white pixels. *)
Definition speckled : Frame :=
  mkFrame 10 10
    ((repeat text_white 3 ++ repeat menu_light 7) :: repeat (repeat menu_light 10) 9).

(** A profile whose template is the whole image. *)
Definition full_profile : Calibration.VisionProfile :=
  Calibration.mkProfile Calibration.fixed_bounds
    (Calibration.mkSpatial (Calibration.mkBox 0 0 1 1) 1).

(** A dominant-hue profile around hue 126. *)
Definition hue_profile : CalibrationHue.VisionProfile :=
  CalibrationHue.mkProfile (mkRange [116; 50; 50; 0] [136; 255; 255; 255])
    (CalibrationHue.mkGeometry 1 (1 # 2) 2 2).

(** A reference image that shows the menu over the whole picture, 12 by
    12 pixels: its dark region has an area above 100. *)
Definition reference : Frame := solid 12 12 menu_dark.

(** A video of one second whose frames all lack the menu colours. *)
Definition green_video : Engine.Video :=
  Engine.mkVideo 1 (fun _ => Some (solid 2 2 green)).

(** A video of one second that shows the menu in its first frame. *)
Definition menu_video : Engine.Video :=
  Engine.mkVideo 1 (fun t => Some (if Qeq_bool t 0 then menu_frame else solid 2 2 green)).

(** A scan of the green video that nothing disturbs. *)
Definition quiet_env : Engine.Env :=
  Engine.mkEnv (Some (Some reference)) true (Some green_video) None Engine.Unmount.


(** A scan of the menu video that nothing disturbs. *)
Definition menu_env : Engine.Env :=
  Engine.mkEnv (Some (Some reference)) true (Some menu_video) None Engine.Unmount.

End Fixture.

(** * Properties *)

(** ** JavaScript arithmetic *)

Module JsFacts.

Lemma ltb_true (a b : Q) : Js.ltb a b = true <-> a < b.
Proof.
  unfold Js.ltb. rewrite negb_true_iff. split; intro H.
  - apply Qnot_le_lt. intro Hle. apply Qle_bool_iff in Hle. congruence.
  - destruct (Qle_bool b a) eqn:E; [|reflexivity].
    apply Qle_bool_iff in E. exfalso. apply (Qlt_not_le _ _ H E).
Qed.

Lemma ltb_false (a b : Q) : Js.ltb a b = false <-> b <= a.
Proof.
  unfold Js.ltb. rewrite negb_false_iff. apply Qle_bool_iff.
Qed.

Lemma trunc_small (x : Q) : -1 < x -> x < 1 -> Js.trunc x = 0%Z.
Proof.
  intros Hlo Hhi. unfold Js.trunc.
  destruct (Js.ltb x 0) eqn:E.
  - apply ltb_true in E.
    pose proof (Qle_ceiling x) as H1. pose proof (Qceiling_lt x) as H2.
    assert (inject_Z (Qceiling x - 1) < inject_Z 0) as A by (eapply Qlt_trans; eauto).
    assert (inject_Z (-1) < inject_Z (Qceiling x)) as B by (eapply Qlt_le_trans; eauto).
    rewrite <- Zlt_Qlt in A, B. lia.
  - apply ltb_false in E.
    pose proof (Qfloor_le x) as H1. pose proof (Qlt_floor x) as H2.
    assert (inject_Z (Qfloor x) < inject_Z 1) as A by (eapply Qle_lt_trans; eauto).
    assert (inject_Z 0 < inject_Z (Qfloor x + 1)) as B by (eapply Qle_lt_trans; eauto).
    rewrite <- Zlt_Qlt in A, B. lia.
Qed.

Lemma rem6_small (x : Q) : -1 <= x -> x <= 1 -> Js.rem x 6 == x.
Proof.
  intros Hlo Hhi. unfold Js.rem.
  rewrite trunc_small.
  - ring.
  - apply Qlt_shift_div_l; lra.
  - apply Qlt_shift_div_r; lra.
Qed.

Lemma gtb_true (a b : Q) : Js.gtb a b = true <-> b < a.
Proof. apply ltb_true. Qed.

Lemma div_finite (a b : Q) : ~ b == 0 -> Js.div a b = Js.Fin (a / b).
Proof.
  intros Hb. unfold Js.div. destruct (Qeq_bool b 0) eqn:E; [|reflexivity].
  apply Qeq_bool_eq in E. contradiction.
Qed.

Lemma inject_Z_pos (z : Z) : (0 < z)%Z -> ~ inject_Z z == 0.
Proof.
  intros Hz H. unfold Qeq in H. cbn in H. lia.
Qed.

(** *** Rounding *)

Lemma pow2_pos (e : Z) : 0 < Js.pow2 e.
Proof.
  destruct e as [|p|p]; cbn [Js.pow2]; [reflexivity| |reflexivity].
  change 0 with (inject_Z 0). rewrite <- Zlt_Qlt. apply Z.pow_pos_nonneg; lia.
Qed.

Lemma nearest_even_lower (a b : Z) : (a / b <= Js.nearest_even a b)%Z.
Proof.
  unfold Js.nearest_even.
  destruct (2 * (a mod b) ?= b)%Z; [destruct (Z.even (a / b))| |]; lia.
Qed.

(** The exponent leaves at least one unit of the significand. *)
Lemma exponent_bound (n d : positive) :
  (0 <= Js.exponent n d)%Z ->
  (Zpos d * 2 ^ Js.exponent n d <= Zpos n)%Z.
Proof.
  unfold Js.exponent.
  set (L := (Z.log2 (Zpos n) - Z.log2 (Zpos d))%Z).
  set (X := if Qle_bool (Js.pow2 L) (Zpos n # d) then L else (L - 1)%Z).
  assert (X <= L)%Z as HX by (unfold X; destruct (Qle_bool _ _); lia).
  intros He.
  pose proof (Z.log2_spec (Zpos n) eq_refl) as [Hn _].
  pose proof (Z.log2_spec (Zpos d) eq_refl) as [_ Hd].
  pose proof (Z.log2_nonneg (Zpos d)) as Hd0.
  pose proof (Z.log2_nonneg (Zpos n)) as Hn0.
  assert (2 ^ (X - 52) <= 2 ^ (L - 52))%Z as H1 by (apply Z.pow_le_mono_r; lia).
  assert (0 < 2 ^ (X - 52))%Z as H2 by (apply Z.pow_pos_nonneg; lia).
  assert (2 ^ Z.succ (Z.log2 (Zpos d)) * 2 ^ (L - 52) <= 2 ^ Z.log2 (Zpos n))%Z as H3.
  { rewrite <- Z.pow_add_r by (unfold L in *; lia).
    apply Z.pow_le_mono_r; unfold L; lia. }
  nia.
Qed.

Lemma exponent_bound_neg (n d : positive) :
  (Js.exponent n d < 0)%Z ->
  (Zpos d <= Zpos n * 2 ^ (- Js.exponent n d))%Z.
Proof.
  unfold Js.exponent.
  set (L := (Z.log2 (Zpos n) - Z.log2 (Zpos d))%Z).
  set (X := if Qle_bool (Js.pow2 L) (Zpos n # d) then L else (L - 1)%Z).
  assert (X <= L)%Z as HX by (unfold X; destruct (Qle_bool _ _); lia).
  intros He.
  pose proof (Z.log2_spec (Zpos n) eq_refl) as [Hn _].
  pose proof (Z.log2_spec (Zpos d) eq_refl) as [_ Hd].
  pose proof (Z.log2_nonneg (Zpos d)) as Hd0.
  pose proof (Z.log2_nonneg (Zpos n)) as Hn0.
  assert (0 < 2 ^ (- (X - 52)))%Z as H2 by (apply Z.pow_pos_nonneg; lia).
  assert (2 ^ Z.succ (Z.log2 (Zpos d)) <= 2 ^ Z.log2 (Zpos n) * 2 ^ (- (X - 52)))%Z as H3.
  { rewrite <- Z.pow_add_r by lia.
    apply Z.pow_le_mono_r; unfold L in *; lia. }
  nia.
Qed.

Lemma nearest_pos (n d : positive) : 0 < Js.nearest n d.
Proof.
  unfold Js.nearest. rewrite Qred_correct.
  assert (0 < inject_Z
                (if (0 <=? Js.exponent n d)%Z
                 then Js.nearest_even (Zpos n) (Zpos d * 2 ^ Js.exponent n d)
                 else Js.nearest_even (Zpos n * 2 ^ (- Js.exponent n d)) (Zpos d))) as Hm.
  { change 0 with (inject_Z 0). rewrite <- Zlt_Qlt.
    destruct (0 <=? Js.exponent n d)%Z eqn:E.
    - apply Z.leb_le in E. pose proof (exponent_bound n d E) as Hb.
      assert (0 < 2 ^ Js.exponent n d)%Z by (apply Z.pow_pos_nonneg; lia).
      eapply Z.lt_le_trans; [|apply nearest_even_lower].
      apply Z.div_str_pos. nia.
    - apply Z.leb_gt in E. pose proof (exponent_bound_neg n d E) as Hb.
      eapply Z.lt_le_trans; [|apply nearest_even_lower].
      apply Z.div_str_pos. lia. }
  pose proof (pow2_pos (Js.exponent n d)) as Hp.
  nra.
Qed.

(** A positive number does not round to zero. *)
Lemma double_pos (q : Q) : 0 < q -> 0 < Js.double q.
Proof.
  intros Hq. unfold Js.double.
  pose proof (Qred_correct q) as Hred.
  destruct (Qred q) as [num den].
  assert (0 < num # den) as H1 by (rewrite Hred; exact Hq).
  unfold Qlt in H1. cbn in H1.
  destruct num as [|n|n]; try lia.
  apply nearest_pos.
Qed.

Lemma double_nonzero (q : Q) : 0 < q -> ~ Js.double q == 0.
Proof.
  intros Hq H. pose proof (double_pos q Hq) as Hpos.
  rewrite H in Hpos. discriminate Hpos.
Qed.

Lemma double_integer_nonzero (z : Z) : (0 < z)%Z -> ~ Js.double (inject_Z z) == 0.
Proof.
  intros Hz H.
  assert (0 < Js.double (inject_Z z)) as Hpos.
  { apply double_pos. change 0 with (inject_Z 0). rewrite <- Zlt_Qlt. exact Hz. }
  rewrite H in Hpos. discriminate Hpos.
Qed.

(** Zero is a binary64 number. *)
Lemma double_of_zero (q : Q) : q == 0 -> Js.double q = 0.
Proof.
  intros H. unfold Js.double. rewrite (Qred_complete _ _ H). reflexivity.
Qed.

Lemma mul64_zero (b : Q) : Js.mul64 0 b = 0.
Proof.
  unfold Js.mul64. apply double_of_zero.
  change (Js.double 0) with 0. ring.
Qed.

(** The rounded quotient by a positive number is a number. *)
Lemma div64_positive (a b : Q) :
  0 < b -> Js.div64 a b = Js.Fin (Js.quot64 a b).
Proof.
  intros Hb. unfold Js.div64.
  rewrite div_finite by (apply double_nonzero; exact Hb). reflexivity.
Qed.

(** The rounded quotient by a positive integer is a number. *)
Lemma div64_finite (a : Q) (z : Z) :
  (0 < z)%Z -> Js.div64 a (inject_Z z) = Js.Fin (Js.quot64 a (inject_Z z)).
Proof.
  intros Hz. unfold Js.div64.
  rewrite div_finite by (apply double_integer_nonzero; exact Hz). reflexivity.
Qed.

End JsFacts.

(** ** Colour Range Model *)

Module ColorRangeFacts.
Import ColorRange JsFacts.

Lemma div_unit (x d : Q) : 0 < d -> - d <= x -> x <= d -> -1 <= x / d /\ x / d <= 1.
Proof.
  intros Hd Hlo Hhi. split.
  - apply Qle_shift_div_l; [assumption | lra].
  - apply Qle_shift_div_r; [assumption | lra].
Qed.

Lemma max3_bounds (a b c : Q) :
  a <= Js.max3 a b c /\ b <= Js.max3 a b c /\ c <= Js.max3 a b c.
Proof.
  unfold Js.max3.
  pose proof (Q.le_max_l (Qmax a b) c). pose proof (Q.le_max_r (Qmax a b) c).
  pose proof (Q.le_max_l a b). pose proof (Q.le_max_r a b).
  repeat split; lra.
Qed.

Lemma min3_bounds (a b c : Q) :
  Js.min3 a b c <= a /\ Js.min3 a b c <= b /\ Js.min3 a b c <= c.
Proof.
  unfold Js.min3.
  pose proof (Q.le_min_l (Qmin a b) c). pose proof (Q.le_min_r (Qmin a b) c).
  pose proof (Q.le_min_l a b). pose proof (Q.le_min_r a b).
  repeat split; lra.
Qed.

Lemma max3_le (a b c t : Q) : a <= t -> b <= t -> c <= t -> Js.max3 a b c <= t.
Proof. intros. unfold Js.max3. repeat apply Q.max_lub; assumption. Qed.

Lemma min3_ge (a b c t : Q) : t <= a -> t <= b -> t <= c -> t <= Js.min3 a b c.
Proof. intros. unfold Js.min3. repeat apply Q.min_glb; assumption. Qed.

(** The hue of any sample lies in [0,360] degrees. *)
Lemma hue_degrees_bounds (r g b : Q) :
  0 <= hue_degrees r g b /\ hue_degrees r g b <= 360.
Proof.
  unfold hue_degrees.
  destruct (max3_bounds r g b) as (Mr & Mg & Mb).
  destruct (min3_bounds r g b) as (mr & mg & mb).
  set (M := Js.max3 r g b) in *. set (m := Js.min3 r g b) in *.
  set (h := if Qeq_bool (M - m) 0 then _ else _).
  assert (-60 <= h /\ h <= 300) as [Hlo Hhi].
  { subst h. destruct (Qeq_bool (M - m) 0) eqn:Ed; [lra|].
    apply Qeq_bool_neq in Ed.
    assert (0 < M - m) as Hd.
    { apply Qnot_le_lt. intro Hle. apply Ed. lra. }
    destruct (Qeq_bool M r) eqn:Er.
    - apply Qeq_bool_eq in Er.
      destruct (div_unit (g - b) (M - m) Hd) as [A B]; try lra.
      rewrite (rem6_small _ A B). lra.
    - destruct (Qeq_bool M g) eqn:Eg.
      + apply Qeq_bool_eq in Eg.
        destruct (div_unit (b - r) (M - m) Hd) as [A B]; try lra.
      + destruct (Qeq_bool M b) eqn:Eb; [|lra].
        apply Qeq_bool_eq in Eb.
        destruct (div_unit (r - g) (M - m) Hd) as [A B]; try lra. }
  destruct (Js.ltb h 0) eqn:E.
  - apply ltb_true in E. lra.
  - apply ltb_false in E. lra.
Qed.

Lemma clamp_ok (x t top : Q) :
  0 <= x -> x <= top -> 0 <= t ->
  0 <= Qmax 0 (x - t) /\ Qmax 0 (x - t) <= Qmin top (x + t) /\ Qmin top (x + t) <= top.
Proof.
  intros Hx Hxt Ht. repeat split.
  - apply Q.le_max_l.
  - apply Q.max_lub; apply Q.min_glb; lra.
  - apply Q.le_min_l.
Qed.

(** C6. For every RGB sample (channels in 0..255) and every non-negative
    per-channel tolerance, the Colour Range that [getHsvRange] returns has
    lower <= upper on each channel, its hue bounds in [0,180] and its
    saturation and value bounds in [0,255]. *)
Theorem getHsvRange_range_ok (rgb : RGB) (tolerance : Tolerance) :
  rgb_sample rgb -> tolerance_nonneg tolerance ->
  range_ok (getHsvRange rgb tolerance).
Proof.
  destruct rgb as [[r0 g0] b0]. intros ((Hr0 & Hr1) & (Hg0 & Hg1) & (Hb0 & Hb1)) (Th & Ts & Tv).
  unfold getHsvRange, range_ok, channel_ok, chan; cbn [lower upper nth].
  assert (forall x, 0 <= x -> x <= 255 -> 0 <= x / 255 /\ x / 255 <= 1) as Hdiv.
  { intros x H0 H1. split.
    - apply Qle_shift_div_l; lra.
    - apply Qle_shift_div_r; lra. }
  destruct (Hdiv r0 Hr0 Hr1) as [R0 R1].
  destruct (Hdiv g0 Hg0 Hg1) as [G0 G1].
  destruct (Hdiv b0 Hb0 Hb1) as [B0 B1].
  set (r := r0 / 255) in *. set (g := g0 / 255) in *. set (b := b0 / 255) in *.
  destruct (max3_bounds r g b) as (Mr & Mg & Mb).
  destruct (min3_bounds r g b) as (mr & mg & mb).
  pose proof (max3_le r g b 1 R1 G1 B1) as M1.
  pose proof (min3_ge r g b 0 R0 G0 B0) as m0.
  destruct (hue_degrees_bounds r g b) as [H0 H360].
  set (M := Js.max3 r g b) in *. set (m := Js.min3 r g b) in *.
  split; [|split].
  - apply clamp_ok; [ | | assumption].
    + apply Qle_shift_div_l; lra.
    + apply Qle_shift_div_r; lra.
  - apply clamp_ok; [ | | assumption].
    + destruct (Qeq_bool M 0) eqn:E; [lra|].
      apply Qeq_bool_neq in E.
      assert (0 < M) by (apply Qnot_le_lt; intro; apply E; lra).
      assert (0 <= (M - m) / M) by (apply Qle_shift_div_l; lra).
      nra.
    + destruct (Qeq_bool M 0) eqn:E; [lra|].
      apply Qeq_bool_neq in E.
      assert (0 < M) by (apply Qnot_le_lt; intro; apply E; lra).
      assert ((M - m) / M <= 1) by (apply Qle_shift_div_r; lra).
      nra.
  - apply clamp_ok; [ | | assumption]; nra.
Qed.

(** The theorem at the calibration's own call: the dark menu colour with
    the tolerance [{ h: 10, s: 50, v: 50 }]. *)
Lemma getHsvRange_range_ok_witness :
  range_ok (getHsvRange MENU_DARK (mkTol 10 50 50)).
Proof.
  apply getHsvRange_range_ok.
  - unfold rgb_sample, MENU_DARK. repeat split; discriminate.
  - unfold tolerance_nonneg. cbn. repeat split; discriminate.
Defined.

End ColorRangeFacts.

(** ** Exceptions and the console *)

Module EffFacts.
Import Eff.

Lemma outcome_bind_returned {A B} (m : M A) (k : A -> M B) (a : A) :
  outcome m = Returned a -> outcome (bind m k) = outcome (k a).
Proof.
  destruct m as [o l]. cbn. intros ->. cbn. destruct (k a). reflexivity.
Qed.

Lemma outcome_bind_thrown {A B} (m : M A) (k : A -> M B) (e : Exn) :
  outcome m = Thrown e -> outcome (bind m k) = Thrown e.
Proof.
  destruct m as [o l]. cbn. intros ->. reflexivity.
Qed.

(** A handler that logs and returns makes the whole [try] return. *)
Lemma try_catch_returns {A} (m : M A) (handler : Exn -> M A) :
  (forall e, exists a, outcome (handler e) = Returned a) ->
  exists a, outcome (try_catch m handler) = Returned a.
Proof.
  intros H. destruct m as [[a|e] l]; cbn.
  - exists a. reflexivity.
  - destruct (H e) as [a Ha]. destruct (handler e) as [o l2]. cbn in *.
    exists a. assumption.
Qed.

Lemma when_returns (b : bool) (entry : LogEntry) :
  outcome (when b (console entry)) = Returned tt.
Proof. destruct b; reflexivity. Qed.

End EffFacts.

(** ** The local variables of [scanFrame] *)

Module ScopeFacts.
Import Eff Scope.

Lemma same_refl (v : Var) : same v v = true.
Proof. apply Nat.eqb_refl. Qed.

Lemma same_eq (v w : Var) : same v w = true -> v = w.
Proof. destruct v, w; intros H; try reflexivity; discriminate H. Qed.

Lemma same_neq (v w : Var) : v <> w -> same v w = false.
Proof.
  intros H. destruct (same v w) eqn:E; [|reflexivity].
  apply same_eq in E. contradiction.
Qed.

Lemma bind_returned {A B} (m : ST A) (k : A -> ST B) s a s1 l1 :
  m s = (Returned a, s1, l1) ->
  bind m k s = (outcome (k a s1), store (k a s1), l1 ++ logged (k a s1)).
Proof.
  intros H. unfold bind. rewrite H. destruct (k a s1) as [[o s2] l2]. reflexivity.
Qed.

Lemma bind_thrown {A B} (m : ST A) (k : A -> ST B) s e s1 l1 :
  m s = (Thrown e, s1, l1) -> bind m k s = (Thrown e, s1, l1).
Proof. intros H. unfold bind. rewrite H. reflexivity. Qed.

Lemma bind_of_returned {A B} (m : ST A) (k : A -> ST B) s a :
  outcome (m s) = Returned a ->
  bind m k s =
  (outcome (k a (store (m s))), store (k a (store (m s))),
   logged (m s) ++ logged (k a (store (m s)))).
Proof.
  unfold outcome, store, logged. intros H. unfold bind.
  destruct (m s) as [[o s1] l1]. cbn in *. subst o.
  destruct (k a s1) as [[o s2] l2]. reflexivity.
Qed.

Lemma bind_pure {A B} (a : A) (k : A -> ST B) s : bind (ret a) k s = k a s.
Proof. unfold bind, ret. destruct (k a s) as [[o s2] l2]. reflexivity. Qed.

Lemma bind_assign {B} (v : Var) (k : unit -> ST B) s :
  bind (assign v) k s = k tt (put v Live s).
Proof. unfold bind, assign. destruct (k tt _) as [[o s2] l2]. reflexivity. Qed.

Lemma bind_call_some {A B} (a : A) (k : A -> ST B) s :
  bind (lift (cv_call (Some a))) k s = k a s.
Proof.
  unfold bind, lift, cv_call. cbn. destruct (k a s) as [[o s2] l2]. reflexivity.
Qed.

Lemma bind_call_none {A B} (k : A -> ST B) s :
  bind (lift (cv_call None)) k s = (Thrown CvException, s, []).
Proof. reflexivity. Qed.

Lemma bind_log {B} (entry : LogEntry) (k : unit -> ST B) s :
  bind (lift (console entry)) k s =
  (outcome (k tt s), store (k tt s), entry :: logged (k tt s)).
Proof.
  unfold bind, lift, console. cbn. destruct (k tt s) as [[o s2] l2]. reflexivity.
Qed.

Lemma bind_release_null {B} (v : Var) (k : unit -> ST B) s :
  refs s v = Null -> bind (release v) k s = k tt s.
Proof.
  intros H. unfold bind, release. rewrite H.
  destruct (k tt s) as [[o s2] l2]. reflexivity.
Qed.

Lemma try_catch_thrown {A} (m : ST A) (handler : Exn -> ST A) s e s1 l1 :
  m s = (Thrown e, s1, l1) ->
  try_catch m handler s =
  (outcome (handler e s1), store (handler e s1), l1 ++ logged (handler e s1)).
Proof.
  intros H. unfold try_catch. rewrite H.
  destruct (handler e s1) as [[o s2] l2]. reflexivity.
Qed.

(** Two continuations that agree on the value the first part returns. *)
Lemma bind_same_branch {A B} (m : ST A) (k1 k2 : A -> ST B) s a :
  outcome (m s) = Returned a ->
  k1 a (store (m s)) = k2 a (store (m s)) ->
  bind m k1 s = bind m k2 s.
Proof.
  unfold bind, outcome, store. destruct (m s) as [[o s1] l1]. cbn.
  intros -> ->. reflexivity.
Qed.

Lemma when_log (b : bool) (entry : LogEntry) s :
  when b (lift (console entry)) s = (Returned tt, s, if b then [entry] else []).
Proof. destruct b; reflexivity. Qed.

Lemma delete_if_set_cases (v : Var) s :
  delete_if_set v s =
  match refs s v with
  | Null => (Returned tt, s, [])
  | Live => (Returned tt, put v Deleted s, [])
  | Deleted => (Thrown BindingError, s, [])
  end.
Proof. unfold delete_if_set, delete. destruct (refs s v); reflexivity. Qed.

Lemma deleted_put_other (v w : Var) (r : Ref) s :
  w <> v -> deleted (put v r s) w = deleted s w.
Proof.
  intros H. unfold deleted, put. cbn [refs]. rewrite (same_neq _ _ H). reflexivity.
Qed.

Lemma existsb_agree {A} (f g : A -> bool) (l : list A) :
  (forall a, In a l -> f a = g a) -> existsb f l = existsb g l.
Proof.
  induction l as [|a l IH]; intros H; [reflexivity|].
  cbn [existsb]. rewrite (H a (or_introl eq_refl)), IH; [reflexivity|].
  intros b Hb. apply H. right. exact Hb.
Qed.

(** A [finally] block throws exactly when one of its variables holds a
    deleted matrix; it touches neither [detected] nor the console. *)
Lemma delete_all_outcome (vs : list Var) :
  NoDup vs ->
  forall s,
    outcome (delete_all vs s) =
    if existsb (deleted s) vs then Thrown BindingError else Returned tt.
Proof.
  induction 1 as [|v vs Hnotin Hnd IH]; intros s; [reflexivity|].
  cbn [delete_all existsb]. unfold deleted at 1.
  pose proof (delete_if_set_cases v s) as Hv.
  destruct (refs s v) eqn:E.
  - rewrite (bind_returned _ _ _ _ _ _ Hv). cbn [outcome fst orb]. apply IH.
  - rewrite (bind_returned _ _ _ _ _ _ Hv). cbn [outcome fst orb].
    change (fst (fst (delete_all vs (put v Deleted s))))
      with (outcome (delete_all vs (put v Deleted s))).
    rewrite IH. rewrite (existsb_agree (deleted (put v Deleted s)) (deleted s)); [reflexivity|].
    intros w Hw. apply deleted_put_other. intros ->. contradiction.
  - rewrite (bind_thrown _ _ _ _ _ _ Hv). reflexivity.
Qed.

Lemma delete_all_quiet (vs : list Var) :
  forall s,
    detected (store (delete_all vs s)) = detected s /\ logged (delete_all vs s) = [].
Proof.
  induction vs as [|v vs IH]; intros s; [split; reflexivity|].
  cbn [delete_all].
  pose proof (delete_if_set_cases v s) as Hv.
  destruct (refs s v).
  - rewrite (bind_returned _ _ _ _ _ _ Hv). cbn [store logged fst snd app]. apply IH.
  - rewrite (bind_returned _ _ _ _ _ _ Hv). cbn [store logged fst snd app].
    apply (IH (put v Deleted s)).
  - rewrite (bind_thrown _ _ _ _ _ _ Hv). split; reflexivity.
Qed.

End ScopeFacts.

Local Open Scope eff_scope.

(** ** Frame Scanner *)

Module DetectionFacts.
Import ColorRange Eff Cv Calibration EffFacts ScopeFacts.
Import DetectionIoU(triad_vars, left_set, clean).
Import DetectionDensity(white_vars, white_clean).

Lemma bind_split {A B} (m : M A) (k : A -> M B) (a : A) :
  outcome m = Returned a ->
  bind m k = (outcome (k a), logged m ++ logged (k a)).
Proof.
  destruct m as [o l]. cbn. intros ->. destruct (k a). reflexivity.
Qed.

Lemma bind_ret {A B} (a : A) (k : A -> M B) : bind (ret a) k = k a.
Proof. unfold bind, ret. destruct (k a). reflexivity. Qed.

(** *** The overlap policy *)

Section OverlapPolicy.
Import DetectionIoU.
Variables (cv : Collaborator) (hsv : Mat) (profile : VisionProfile).
Variables (expectedRect : Rect) (debugMode : bool).

(** The inner [try] with its [catch] gives the content verdict, whatever
    the variables hold. *)
Lemma checked_outcome (rect : Rect) (s : Scope.Store) :
  Scope.outcome (checked cv hsv profile debugMode rect s) =
  Returned (content_ok cv hsv profile rect).
Proof.
  unfold checked, triad_check, content_ok, Scope.try_catch.
  destruct (Cv.roi hsv rect) as [roi|]; [|reflexivity].
  rewrite bind_call_some.
  destruct debugMode;
    destruct (triad_rule (density cv roi (light (bounds profile)) (width rect * height rect))
                (density cv roi (white (bounds profile)) (width rect * height rect)));
    reflexivity.
Qed.

(** What the inner [try] leaves in the variables. *)
Lemma checked_store (rect : Rect) (s : Scope.Store) :
  clean s ->
  let r := checked cv hsv profile debugMode rect s in
  Scope.detected (Scope.store r) = Scope.detected s || content_ok cv hsv profile rect /\
  forall v, Scope.refs (Scope.store r) v =
            if content_ok cv hsv profile rect && left_set v then Scope.Deleted
            else Scope.refs s v.
Proof.
  intros Hclean. unfold checked, triad_check, content_ok, Scope.try_catch.
  destruct (Cv.roi hsv rect) as [roi|].
  - rewrite bind_call_some.
    destruct debugMode;
      destruct (triad_rule (density cv roi (light (bounds profile)) (width rect * height rect))
                  (density cv roi (white (bounds profile)) (width rect * height rect)));
      cbn; (split; [rewrite ?orb_true_r, ?orb_false_r; reflexivity|]);
      intros v; destruct v; cbn; try reflexivity;
      symmetry; apply Hclean; unfold triad_vars; cbn; tauto.
  - cbn. split; [rewrite orb_false_r; reflexivity | reflexivity].
Qed.

(** The loop over the contours never throws; it sets [detected] exactly
    when some candidate passes, and then leaves four deleted matrices in
    their variables. *)
Lemma scan_contours_result (contours : list Contour) :
  forall s,
    clean s ->
    Scope.outcome (scan_contours cv hsv profile expectedRect debugMode contours s) =
      Returned tt /\
    Scope.detected (Scope.store (scan_contours cv hsv profile expectedRect debugMode contours s)) =
      Scope.detected s || existsb (passes cv hsv profile expectedRect) contours /\
    forall v,
      Scope.refs (Scope.store (scan_contours cv hsv profile expectedRect debugMode contours s)) v =
      if existsb (passes cv hsv profile expectedRect) contours && left_set v
      then Scope.Deleted else Scope.refs s v.
Proof.
  induction contours as [|c rest IH]; intros s Hclean.
  - cbn. split; [reflexivity|]. split; [rewrite orb_false_r|intros v]; reflexivity.
  - cbn [scan_contours existsb]. unfold passes at 1 3.
    destruct (spatial_reject (boundingRect c) expectedRect); [apply IH; exact Hclean|].
    cbn [negb andb].
    rewrite (bind_returned _ _ _ _ _ _ (when_log _ _ _)).
    pose proof (checked_outcome (boundingRect c) s) as Ho.
    destruct (checked_store (boundingRect c) s Hclean) as [Hd Hr].
    destruct (checked cv hsv profile debugMode (boundingRect c) s) as [[o s1] l1] eqn:E.
    cbn [Scope.outcome Scope.store fst snd] in Ho, Hd, Hr. subst o.
    rewrite (bind_returned _ _ _ _ _ _ E).
    cbn [Scope.outcome Scope.store Scope.logged fst snd].
    destruct (content_ok cv hsv profile (boundingRect c)).
    + cbn [orb andb]. split; [reflexivity|]. split; [exact Hd|exact Hr].
    + cbn [orb andb] in *. rewrite orb_false_r in Hd.
      assert (clean s1) as Hclean1.
      { intros v Hv. rewrite Hr. apply Hclean. exact Hv. }
      destruct (IH s1 Hclean1) as (Io & Id & Ir).
      split; [exact Io|]. split.
      * rewrite Id, Hd. reflexivity.
      * intros v. rewrite Ir, Hr. reflexivity.
Qed.

(** Nothing that follows a passing candidate is looked at. *)
Lemma scan_contours_stops (before : list Contour) (c : Contour) (after : list Contour) :
  passes cv hsv profile expectedRect c = true ->
  forall s,
    scan_contours cv hsv profile expectedRect debugMode (before ++ c :: after) s =
    scan_contours cv hsv profile expectedRect debugMode (before ++ [c]) s.
Proof.
  intros Hc. unfold passes in Hc. apply andb_true_iff in Hc. destruct Hc as [Hs Hk].
  apply negb_true_iff in Hs.
  induction before as [|b before IH]; intros s.
  - cbn [app scan_contours]. rewrite Hs.
    rewrite !(bind_returned _ _ _ _ _ _ (when_log _ _ _)).
    rewrite !(bind_of_returned (checked cv hsv profile debugMode (boundingRect c)) _ s true)
      by (rewrite checked_outcome, Hk; reflexivity).
    reflexivity.
  - cbn [app scan_contours].
    destruct (spatial_reject (boundingRect b) expectedRect); [apply IH|].
    rewrite !(bind_returned _ _ _ _ _ _ (when_log _ _ _)).
    assert (forall k1 k2 : bool -> Scope.ST unit,
              (forall x s', k1 x s' = k2 x s') ->
              Scope.bind (checked cv hsv profile debugMode (boundingRect b)) k1 s =
              Scope.bind (checked cv hsv profile debugMode (boundingRect b)) k2 s) as Hsame.
    { intros k1 k2 Hk12. unfold Scope.bind.
      destruct (checked cv hsv profile debugMode (boundingRect b) s) as [[[x|e] s1] l1];
        [rewrite Hk12|]; reflexivity. }
    rewrite (Hsame _ (fun break : bool =>
               if break then Scope.ret tt
               else scan_contours cv hsv profile expectedRect debugMode (before ++ [c]))).
    + reflexivity.
    + intros [|] s'; [reflexivity|apply IH].
Qed.

End OverlapPolicy.

Lemma loop_store_clean : clean (Scope.loop_store Scope.maskDark).
Proof.
  intros v Hv. unfold triad_vars in Hv. cbn in Hv.
  repeat (destruct Hv as [<-|Hv]; [reflexivity|]). contradiction.
Qed.

Lemma cleanup_NoDup :
  NoDup [Scope.hsv; Scope.maskDark; Scope.contours; Scope.hierarchy; Scope.lowP; Scope.highP;
         Scope.roi; Scope.maskLight; Scope.maskWhite;
         Scope.lowL; Scope.highL; Scope.lowW; Scope.highW].
Proof.
  repeat (constructor; [cbn; intuition discriminate|]). constructor.
Qed.

(** The [finally] block after a loop that started with the frame's
    matrices allocated and left [detected] and the variables as [s1]. *)
Lemma cleanup_after_loop (found : bool) (s1 : Scope.Store) :
  (forall v, Scope.refs s1 v =
             if found && left_set v then Scope.Deleted
             else Scope.refs (Scope.loop_store Scope.maskDark) v) ->
  Scope.outcome (DetectionIoU.cleanup s1) =
  if found then Thrown BindingError else Returned tt.
Proof.
  intros Hr. unfold DetectionIoU.cleanup.
  rewrite (delete_all_outcome _ cleanup_NoDup).
  cbn [existsb]. unfold Scope.deleted. rewrite !Hr.
  destruct found; reflexivity.
Qed.

(** The call on a frame that converts: the outcome is decided by the
    candidates, and the console output is that of the loop. *)
Lemma scanFrame_converted (cv : Collaborator) (frame : Frame) (hsv : Mat)
  (profile : VisionProfile) (debugMode : bool) :
  cvtColorHSV cv frame = Some hsv ->
  let expectedRect :=
    DetectionIoU.project (normalizedBox (spatial profile)) (cols frame) (rows frame) in
  let contours :=
    findContours cv
      (inRange cv hsv (lower (dark (bounds profile))) (upper (dark (bounds profile)))) in
  DetectionIoU.scanFrame (Some cv) (Some frame) profile debugMode =
  (if existsb (DetectionIoU.passes cv hsv profile expectedRect) contours
   then Thrown BindingError else Returned false,
   Scope.logged (DetectionIoU.scan_contours cv hsv profile expectedRect debugMode contours
                   (Scope.loop_store Scope.maskDark))).
Proof.
  intros Hhsv expectedRect contours.
  unfold DetectionIoU.scanFrame, Scope.run.
  assert (DetectionIoU.scan_body cv (Some frame) profile debugMode Scope.fresh =
          DetectionIoU.scan_contours cv hsv profile expectedRect debugMode contours
            (Scope.loop_store Scope.maskDark)) as Hbody.
  { unfold DetectionIoU.scan_body.
    rewrite ScopeFacts.bind_pure, bind_assign, Hhsv, bind_call_some, !bind_assign.
    reflexivity. }
  destruct (scan_contours_result cv hsv profile expectedRect debugMode contours
              _ loop_store_clean) as (Ho & Hd & Hr).
  fold contours in Hd, Hr.
  set (found := existsb (DetectionIoU.passes cv hsv profile expectedRect) contours) in *.
  pose proof (cleanup_after_loop found _ Hr) as Hc.
  destruct (delete_all_quiet
              [Scope.hsv; Scope.maskDark; Scope.contours; Scope.hierarchy; Scope.lowP;
               Scope.highP; Scope.roi; Scope.maskLight; Scope.maskWhite;
               Scope.lowL; Scope.highL; Scope.lowW; Scope.highW]
              (Scope.store (DetectionIoU.scan_contours cv hsv profile expectedRect debugMode
                              contours (Scope.loop_store Scope.maskDark)))) as [Hqd Hql].
  fold DetectionIoU.cleanup in Hqd, Hql.
  unfold Scope.bind, Scope.try_finally, Scope.try_catch, Scope.get_detected.
  rewrite Hbody.
  destruct (DetectionIoU.scan_contours cv hsv profile expectedRect debugMode contours
              (Scope.loop_store Scope.maskDark)) as [[o s1] l1].
  cbn [Scope.outcome Scope.store Scope.logged fst snd] in *. subst o.
  destruct (DetectionIoU.cleanup s1) as [[o2 s2] l2].
  cbn [Scope.outcome Scope.store Scope.logged fst snd] in *. subst l2.
  rewrite app_nil_r.
  destruct found; subst o2.
  - reflexivity.
  - rewrite Hqd, Hd, app_nil_r. reflexivity.
Qed.

(** A frame that is not a matrix, or whose conversion throws. *)
Lemma scanFrame_unreadable (cv : Collaborator) (srcFrame : option Frame)
  (profile : VisionProfile) (debugMode : bool) :
  match srcFrame with
  | Some frame => cvtColorHSV cv frame = None
  | None => True
  end ->
  DetectionIoU.scanFrame (Some cv) srcFrame profile debugMode =
  (Returned false, [ErrorScanFrame]).
Proof.
  destruct srcFrame as [frame|]; intros H; [|reflexivity].
  unfold DetectionIoU.scanFrame, Scope.run, DetectionIoU.scan_body.
  unfold Scope.bind at 1. unfold Scope.try_finally, Scope.try_catch.
  rewrite ScopeFacts.bind_pure, bind_assign, H. reflexivity.
Qed.

(** [scanFrame] never returns [true]. *)
Lemma scanFrame_not_true (cv : option Collaborator) (srcFrame : option Frame)
  (profile : VisionProfile) (debugMode : bool) :
  outcome (DetectionIoU.scanFrame cv srcFrame profile debugMode) <> Returned true.
Proof.
  destruct cv as [c|]; [|discriminate].
  destruct srcFrame as [frame|]; [|rewrite scanFrame_unreadable by exact I; discriminate].
  destruct (cvtColorHSV c frame) as [hsv|] eqn:Hhsv.
  - rewrite (scanFrame_converted c frame hsv profile debugMode Hhsv). cbn [outcome fst].
    destruct (existsb _ _); discriminate.
  - rewrite scanFrame_unreadable by exact Hhsv. discriminate.
Qed.

(** The loop looks at the collaborator for its scalars only. *)
Lemma scan_contours_yielding (cv : Collaborator) (hsv : Mat) (profile : VisionProfile)
  (expectedRect : Rect) (debugMode : bool) (given contours : list Contour) :
  forall s,
    DetectionIoU.scan_contours (yielding cv given) hsv profile expectedRect debugMode contours s =
    DetectionIoU.scan_contours cv hsv profile expectedRect debugMode contours s.
Proof.
  induction contours as [|c rest IH]; intros s; [reflexivity|].
  cbn [DetectionIoU.scan_contours].
  destruct (DetectionIoU.spatial_reject (boundingRect c) expectedRect); [apply IH|].
  unfold Scope.bind.
  destruct (Scope.when debugMode _ s) as [[[[]|e] s0] l0]; [|reflexivity].
  change (DetectionIoU.checked (yielding cv given) hsv profile debugMode (boundingRect c) s0)
    with (DetectionIoU.checked cv hsv profile debugMode (boundingRect c) s0).
  destruct (DetectionIoU.checked cv hsv profile debugMode (boundingRect c) s0)
    as [[[[|]|e] s1] l1]; [reflexivity| |reflexivity].
  rewrite IH. reflexivity.
Qed.

(** On a frame with a passing candidate, the call is the call on the same
    frame with the contours cut after that candidate. *)
Lemma scanFrame_stops (cv : Collaborator) (frame : Frame) (hsv : Mat)
  (profile : VisionProfile) (debugMode : bool) (before after : list Contour) (c : Contour) :
  cvtColorHSV cv frame = Some hsv ->
  findContours cv
    (inRange cv hsv (lower (dark (bounds profile))) (upper (dark (bounds profile)))) =
    before ++ c :: after ->
  DetectionIoU.passes cv hsv profile
    (DetectionIoU.project (normalizedBox (spatial profile)) (cols frame) (rows frame)) c = true ->
  DetectionIoU.scanFrame (Some cv) (Some frame) profile debugMode =
  DetectionIoU.scanFrame (Some (yielding cv (before ++ [c]))) (Some frame) profile debugMode.
Proof.
  intros Hhsv Hcs Hc.
  rewrite (scanFrame_converted cv frame hsv profile debugMode Hhsv).
  rewrite (scanFrame_converted (yielding cv (before ++ [c])) frame hsv profile debugMode Hhsv).
  cbv zeta. rewrite Hcs. cbn [findContours yielding].
  rewrite scan_contours_yielding, (scan_contours_stops _ _ _ _ _ _ _ _ Hc).
  change (DetectionIoU.passes (yielding cv (before ++ [c])) hsv profile)
    with (DetectionIoU.passes cv hsv profile).
  rewrite !existsb_app. cbn [existsb]. rewrite Hc. reflexivity.
Qed.

(** *** The deviation policy *)

Section DeviationPolicy.
Import DetectionDeviation.
Variables (cv : Collaborator) (hsv : Mat) (profile : VisionProfile) (frame : Frame).

Lemma deviation_checked_outcome (rect : Rect) (s : Scope.Store) :
  Scope.outcome (checked cv hsv profile rect s) =
  Returned (DetectionIoU.content_ok cv hsv profile rect).
Proof.
  unfold checked, triad_check, DetectionIoU.content_ok, Scope.try_catch.
  destruct (Cv.roi hsv rect) as [roi|]; [|reflexivity].
  rewrite bind_call_some.
  destruct (DetectionIoU.triad_rule
              (DetectionIoU.density cv roi (light (bounds profile)) (width rect * height rect))
              (DetectionIoU.density cv roi (white (bounds profile)) (width rect * height rect)));
    reflexivity.
Qed.

Lemma deviation_checked_store (rect : Rect) (s : Scope.Store) :
  clean s ->
  let r := checked cv hsv profile rect s in
  Scope.detected (Scope.store r) =
    Scope.detected s || DetectionIoU.content_ok cv hsv profile rect /\
  forall v, Scope.refs (Scope.store r) v =
            if DetectionIoU.content_ok cv hsv profile rect && left_set v then Scope.Deleted
            else Scope.refs s v.
Proof.
  intros Hclean. unfold checked, triad_check, DetectionIoU.content_ok, Scope.try_catch.
  destruct (Cv.roi hsv rect) as [roi|].
  - rewrite bind_call_some.
    destruct (DetectionIoU.triad_rule
                (DetectionIoU.density cv roi (light (bounds profile)) (width rect * height rect))
                (DetectionIoU.density cv roi (white (bounds profile)) (width rect * height rect)));
      cbn; (split; [rewrite ?orb_true_r, ?orb_false_r; reflexivity|]);
      intros v; destruct v; cbn; try reflexivity;
      symmetry; apply Hclean; unfold triad_vars; cbn; tauto.
  - cbn. split; [rewrite orb_false_r; reflexivity | reflexivity].
Qed.

Lemma deviation_scan_result (contours : list Contour) :
  forall s,
    clean s ->
    Scope.outcome (scan_contours cv hsv profile frame contours s) = Returned tt /\
    Scope.detected (Scope.store (scan_contours cv hsv profile frame contours s)) =
      Scope.detected s || existsb (passes cv hsv profile frame) contours /\
    forall v,
      Scope.refs (Scope.store (scan_contours cv hsv profile frame contours s)) v =
      if existsb (passes cv hsv profile frame) contours && left_set v
      then Scope.Deleted else Scope.refs s v.
Proof.
  induction contours as [|c rest IH]; intros s Hclean.
  - cbn. split; [reflexivity|]. split; [rewrite orb_false_r|intros v]; reflexivity.
  - cbn [scan_contours existsb]. unfold passes at 1 3.
    destruct (spatial_reject (boundingRect c) frame _); [apply IH; exact Hclean|].
    cbn [negb andb].
    pose proof (deviation_checked_outcome (boundingRect c) s) as Ho.
    destruct (deviation_checked_store (boundingRect c) s Hclean) as [Hd Hr].
    destruct (checked cv hsv profile (boundingRect c) s) as [[o s1] l1] eqn:E.
    cbn [Scope.outcome Scope.store fst snd] in Ho, Hd, Hr. subst o.
    rewrite (bind_returned _ _ _ _ _ _ E).
    cbn [Scope.outcome Scope.store Scope.logged fst snd].
    destruct (DetectionIoU.content_ok cv hsv profile (boundingRect c)).
    + cbn [orb andb]. split; [reflexivity|]. split; [exact Hd|exact Hr].
    + cbn [orb andb] in *. rewrite orb_false_r in Hd.
      assert (clean s1) as Hclean1.
      { intros v Hv. rewrite Hr. apply Hclean. exact Hv. }
      destruct (IH s1 Hclean1) as (Io & Id & Ir).
      split; [exact Io|]. split.
      * rewrite Id, Hd. reflexivity.
      * intros v. rewrite Ir, Hr. reflexivity.
Qed.

Lemma deviation_scan_stops (before : list Contour) (c : Contour) (after : list Contour) :
  passes cv hsv profile frame c = true ->
  forall s,
    scan_contours cv hsv profile frame (before ++ c :: after) s =
    scan_contours cv hsv profile frame (before ++ [c]) s.
Proof.
  intros Hc. unfold passes in Hc. apply andb_true_iff in Hc. destruct Hc as [Hs Hk].
  apply negb_true_iff in Hs.
  induction before as [|b before IH]; intros s.
  - cbn [app scan_contours]. rewrite Hs.
    rewrite !(bind_of_returned (checked cv hsv profile (boundingRect c)) _ s true)
      by (rewrite deviation_checked_outcome, Hk; reflexivity).
    reflexivity.
  - cbn [app scan_contours].
    destruct (spatial_reject (boundingRect b) frame _); [apply IH|].
    unfold Scope.bind.
    destruct (checked cv hsv profile (boundingRect b) s) as [[[[|]|e] s1] l1];
      [reflexivity| |reflexivity].
    rewrite IH. reflexivity.
Qed.

Lemma deviation_skips_thrown (contour : Contour) (rest : list Contour) s :
  Cv.roi hsv (boundingRect contour) = None ->
  spatial_reject (boundingRect contour) frame (normalizedBox (spatial profile)) = false ->
  Scope.outcome (scan_contours cv hsv profile frame (contour :: rest) s) =
    Scope.outcome (scan_contours cv hsv profile frame rest s) /\
  Scope.store (scan_contours cv hsv profile frame (contour :: rest) s) =
    Scope.store (scan_contours cv hsv profile frame rest s) /\
  In WarnRoiCheck (Scope.logged (scan_contours cv hsv profile frame (contour :: rest) s)).
Proof.
  intros Hroi Hs.
  assert (checked cv hsv profile (boundingRect contour) s =
          (Returned false, s, [WarnRoiCheck])) as Hchecked.
  { unfold checked, triad_check, Scope.try_catch. rewrite Hroi. reflexivity. }
  cbn [scan_contours]. rewrite Hs.
  rewrite (bind_returned _ _ _ _ _ _ Hchecked).
  cbn [Scope.outcome Scope.store Scope.logged fst snd].
  split; [reflexivity|]. split; [reflexivity|]. left. reflexivity.
Qed.
End DeviationPolicy.

Lemma deviation_scanFrame_converted (cv : Collaborator) (frame : Frame) (hsv : Mat)
  (profile : VisionProfile) :
  cvtColorHSV cv frame = Some hsv ->
  let contours :=
    findContours cv
      (inRange cv hsv (lower (dark (bounds profile))) (upper (dark (bounds profile)))) in
  DetectionDeviation.scanFrame (Some cv) (Some frame) profile =
  (if existsb (DetectionDeviation.passes cv hsv profile frame) contours
   then Thrown BindingError else Returned false,
   Scope.logged (DetectionDeviation.scan_contours cv hsv profile frame contours
                   (Scope.loop_store Scope.maskDark))).
Proof.
  intros Hhsv contours.
  unfold DetectionDeviation.scanFrame, Scope.run.
  assert (DetectionDeviation.scan_body cv (Some frame) profile Scope.fresh =
          DetectionDeviation.scan_contours cv hsv profile frame contours
            (Scope.loop_store Scope.maskDark)) as Hbody.
  { unfold DetectionDeviation.scan_body.
    rewrite bind_assign, ScopeFacts.bind_pure, Hhsv, bind_call_some, !bind_assign.
    reflexivity. }
  destruct (deviation_scan_result cv hsv profile frame contours
              _ loop_store_clean) as (Ho & Hd & Hr).
  fold contours in Hd, Hr.
  set (found := existsb (DetectionDeviation.passes cv hsv profile frame) contours) in *.
  pose proof (cleanup_after_loop found _ Hr) as Hc.
  destruct (delete_all_quiet
              [Scope.hsv; Scope.maskDark; Scope.contours; Scope.hierarchy; Scope.lowP;
               Scope.highP; Scope.roi; Scope.maskLight; Scope.maskWhite;
               Scope.lowL; Scope.highL; Scope.lowW; Scope.highW]
              (Scope.store (DetectionDeviation.scan_contours cv hsv profile frame
                              contours (Scope.loop_store Scope.maskDark)))) as [Hqd Hql].
  fold DetectionIoU.cleanup in Hqd, Hql.
  unfold Scope.bind, Scope.try_finally, Scope.try_catch, Scope.get_detected.
  rewrite Hbody.
  destruct (DetectionDeviation.scan_contours cv hsv profile frame contours
              (Scope.loop_store Scope.maskDark)) as [[o s1] l1].
  cbn [Scope.outcome Scope.store Scope.logged fst snd] in *. subst o.
  destruct (DetectionIoU.cleanup s1) as [[o2 s2] l2].
  cbn [Scope.outcome Scope.store Scope.logged fst snd] in *. subst l2.
  rewrite app_nil_r.
  destruct found; subst o2.
  - reflexivity.
  - rewrite Hqd, Hd, app_nil_r. reflexivity.
Qed.


Lemma deviation_scan_yielding (cv : Collaborator) (hsv : Mat) (profile : VisionProfile)
  (frame : Frame) (given contours : list Contour) :
  forall s,
    DetectionDeviation.scan_contours (yielding cv given) hsv profile frame contours s =
    DetectionDeviation.scan_contours cv hsv profile frame contours s.
Proof.
  induction contours as [|c rest IH]; intros s; [reflexivity|].
  cbn [DetectionDeviation.scan_contours].
  destruct (DetectionDeviation.spatial_reject (boundingRect c) frame _); [apply IH|].
  unfold Scope.bind.
  change (DetectionDeviation.checked (yielding cv given) hsv profile (boundingRect c) s)
    with (DetectionDeviation.checked cv hsv profile (boundingRect c) s).
  destruct (DetectionDeviation.checked cv hsv profile (boundingRect c) s)
    as [[[[|]|e] s1] l1]; [reflexivity| |reflexivity].
  rewrite IH. reflexivity.
Qed.

Lemma deviation_scanFrame_stops (cv : Collaborator) (frame : Frame) (hsv : Mat)
  (profile : VisionProfile) (before after : list Contour) (c : Contour) :
  cvtColorHSV cv frame = Some hsv ->
  findContours cv
    (inRange cv hsv (lower (dark (bounds profile))) (upper (dark (bounds profile)))) =
    before ++ c :: after ->
  DetectionDeviation.passes cv hsv profile frame c = true ->
  DetectionDeviation.scanFrame (Some cv) (Some frame) profile =
  DetectionDeviation.scanFrame (Some (yielding cv (before ++ [c]))) (Some frame) profile.
Proof.
  intros Hhsv Hcs Hc.
  rewrite (deviation_scanFrame_converted cv frame hsv profile Hhsv).
  rewrite (deviation_scanFrame_converted (yielding cv (before ++ [c])) frame hsv profile Hhsv).
  cbv zeta. rewrite Hcs. cbn [findContours yielding].
  rewrite deviation_scan_yielding, (deviation_scan_stops _ _ _ _ _ _ _ Hc).
  change (DetectionDeviation.passes (yielding cv (before ++ [c])) hsv profile)
    with (DetectionDeviation.passes cv hsv profile).
  rewrite !existsb_app. cbn [existsb]. rewrite Hc. reflexivity.
Qed.

(** *** The revision with the white density *)

Section WhiteDensity.
Import DetectionDensity.
Variables (cv : Collaborator) (hsv : Mat) (profile : CalibrationHue.VisionProfile).
Variables (config : ScanConfig) (minArea : Q).

(** The inner [try] with its [catch] gives the content verdict and leaves
    the variables as they were. *)
Lemma density_checked_result (rect : Rect) (area : Q) (s : Scope.Store) :
  white_clean s ->
  let r := checked cv hsv config rect area s in
  Scope.outcome r = Returned (content_ok cv hsv config rect area) /\
  Scope.detected (Scope.store r) = Scope.detected s || content_ok cv hsv config rect area /\
  forall v, Scope.refs (Scope.store r) v = Scope.refs s v.
Proof.
  intros Hclean.
  assert (Scope.refs s Scope.roiWhite = Scope.Null) as H1
    by (apply Hclean; unfold white_vars; cbn; tauto).
  assert (Scope.refs s Scope.maskWhite = Scope.Null) as H2
    by (apply Hclean; unfold white_vars; cbn; tauto).
  assert (Scope.refs s Scope.lowW = Scope.Null) as H3
    by (apply Hclean; unfold white_vars; cbn; tauto).
  assert (Scope.refs s Scope.highW = Scope.Null) as H4
    by (apply Hclean; unfold white_vars; cbn; tauto).
  unfold checked, white_check, content_ok.
  destruct (Cv.roi hsv rect) as [roiWhite|].
  - unfold Scope.try_catch. rewrite bind_call_some.
    destruct (white_rule cv roiWhite config area); cbn;
      (split; [reflexivity|]);
      (split; [rewrite ?orb_true_r, ?orb_false_r; reflexivity|]);
      intros v; destruct v; cbn; congruence.
  - rewrite (try_catch_thrown _ _ _ _ _ _ (bind_call_none _ _)).
    rewrite bind_log, !bind_release_null by assumption. cbn.
    split; [reflexivity|]. split; [rewrite orb_false_r|intros v]; reflexivity.
Qed.

End WhiteDensity.






End DetectionFacts.

(** ** The claims on the Frame Scanner *)

Module ScannerClaims.
Import ColorRange Eff Cv Calibration EffFacts ScopeFacts DetectionFacts JsFacts.




(** A frame without data: the conversion throws, the error is logged and
    the verdict is [false]. *)
Example scanFrame_broken_frame :
  DetectionIoU.scanFrame (Some Fixture.toy_cv) (Some Fixture.broken)
    Fixture.full_profile true = (Returned false, [ErrorScanFrame]).
Proof. reflexivity. Qed.

(** C3.  On a frame that converts, [scanFrame] looks at the contours of
    the dark mask in the order of the vector and stops at the first that
    passes both the spatial filter and the content verification: the call
    is the call on the contours cut after it.  When none passes it
    returns [false].  When one passes it does not return [true]: the
    [finally] block deletes again the four matrices that the match path
    left in their variables, and the exception leaves the function.  Both
    spatial policies. *)
Theorem scanFrame_first_passing_candidate
  (cv : Collaborator) (frame : Frame) (hsv : Mat) (profile : VisionProfile)
  (debugMode : bool) :
  cvtColorHSV cv frame = Some hsv ->
  let contours :=
    findContours cv
      (inRange cv hsv (lower (dark (bounds profile))) (upper (dark (bounds profile)))) in
  let expectedRect :=
    DetectionIoU.project (normalizedBox (spatial profile)) (cols frame) (rows frame) in
  (outcome (DetectionIoU.scanFrame (Some cv) (Some frame) profile debugMode) =
     (if existsb (DetectionIoU.passes cv hsv profile expectedRect) contours
      then Thrown BindingError else Returned false) /\
   forall before c after,
     contours = before ++ c :: after ->
     DetectionIoU.passes cv hsv profile expectedRect c = true ->
     DetectionIoU.scanFrame (Some cv) (Some frame) profile debugMode =
     DetectionIoU.scanFrame (Some (yielding cv (before ++ [c]))) (Some frame)
       profile debugMode) /\
  (outcome (DetectionDeviation.scanFrame (Some cv) (Some frame) profile) =
     (if existsb (DetectionDeviation.passes cv hsv profile frame) contours
      then Thrown BindingError else Returned false) /\
   forall before c after,
     contours = before ++ c :: after ->
     DetectionDeviation.passes cv hsv profile frame c = true ->
     DetectionDeviation.scanFrame (Some cv) (Some frame) profile =
     DetectionDeviation.scanFrame (Some (yielding cv (before ++ [c]))) (Some frame) profile).
Proof.
  intros Hhsv contours expectedRect.
  split; split.
  - rewrite (scanFrame_converted cv frame hsv profile debugMode Hhsv). reflexivity.
  - intros before c after Hcs Hc. eapply scanFrame_stops; eassumption.
  - rewrite (deviation_scanFrame_converted cv frame hsv profile Hhsv). reflexivity.
  - intros before c after Hcs Hc. eapply deviation_scanFrame_stops; eassumption.
Qed.

(** The theorem on the sample menu frame with three contours: the corner
    is rejected, the whole frame passes, and the box beyond the frame is
    not looked at; the call ends with the exception. *)
Lemma scanFrame_first_passing_candidate_witness :
  outcome (DetectionIoU.scanFrame (Some Fixture.menu_cv) (Some Fixture.menu_frame)
             Fixture.full_profile true) = Thrown BindingError /\
  DetectionIoU.scanFrame (Some Fixture.menu_cv) (Some Fixture.menu_frame)
    Fixture.full_profile true =
  DetectionIoU.scanFrame (Some (yielding Fixture.menu_cv [Fixture.corner; Fixture.body]))
    (Some Fixture.menu_frame) Fixture.full_profile true.
Proof.
  destruct (scanFrame_first_passing_candidate Fixture.menu_cv Fixture.menu_frame
              Fixture.menu_hsv Fixture.full_profile true) as [[H1 H2] _].
  - reflexivity.
  - split.
    + rewrite H1. vm_compute. reflexivity.
    + apply (H2 [Fixture.corner] Fixture.body [Fixture.beyond]).
      * reflexivity.
      * vm_compute. reflexivity.
Defined.

(** What the console shows of the three contours: the match of the whole
    frame, and no warning from the box beyond it, which is logged when it
    comes first. *)
Example menu_frame_console :
  DetectionIoU.scanFrame (Some Fixture.menu_cv) (Some Fixture.menu_frame)
    Fixture.full_profile true =
  (Thrown BindingError,
   [LogSpatialMatch (4 # 4) 0 0; LogTriadDensity (Js.Fin (1 # 4)) (Js.Fin (1 # 4))]) /\
  DetectionIoU.scanFrame (Some (yielding Fixture.toy_cv [Fixture.beyond; Fixture.body]))
    (Some Fixture.menu_frame) Fixture.full_profile true =
  (Thrown BindingError,
   [LogSpatialMatch (4 # 6) 0 0; WarnRoiCheck;
    LogSpatialMatch (4 # 4) 0 0; LogTriadDensity (Js.Fin (1 # 4)) (Js.Fin (1 # 4))]).
Proof. split; vm_compute; reflexivity. Qed.

(** The projection rounds the product before it takes the floor: row 39
    of 1080, on a frame of 360 rows, is row 12. *)
Example project_rounds :
  DetectionIoU.project (mkBox 0 (39 # 1080) 1 1) 640 360 = mkRect 0 12 640 360.
Proof. vm_compute. reflexivity. Qed.

Lemma count_true_map {A} (f : A -> bool) (row : list A) :
  count_true (map f row) = length (filter f row).
Proof.
  unfold count_true. induction row as [|a row IH]; [reflexivity|].
  cbn. destruct (f a); cbn; rewrite IH; reflexivity.
Qed.

(** [countNonZero] of an [inRange] mask counts the pixels in the range. *)
Lemma countNonZero_inRange (cv : Collaborator) (m : Mat) (range : HSVRange) :
  countNonZero (inRange cv m (lower range) (upper range)) =
  Z.of_nat (length (DetectionIoU.matching cv m range)).
Proof.
  unfold countNonZero, inRange, DetectionIoU.matching. f_equal.
  induction m as [|row m IH]; [reflexivity|].
  cbn [map list_sum fold_right concat].
  rewrite filter_app, length_app, count_true_map.
  f_equal. exact IH.
Qed.

Lemma density_exceeds (cv : Collaborator) (roi : Mat) (range : HSVRange) (area : Z) :
  (0 < area)%Z ->
  Js.ngtb (DetectionIoU.density cv roi range area) (1 # 100) = true <->
  (1 # 100) < inject_Z (Z.of_nat (length (DetectionIoU.matching cv roi range)))
              / inject_Z area.
Proof.
  intros Harea. unfold DetectionIoU.density.
  rewrite countNonZero_inRange, div_finite by (apply inject_Z_pos; assumption).
  cbn [Js.ngtb]. apply gtb_true.
Qed.

Lemma content_ok_iff (cv : Collaborator) (hsv : Mat) (profile : VisionProfile)
  (rect : Rect) (roi : Mat) :
  Cv.roi hsv rect = Some roi ->
  (0 < width rect * height rect)%Z ->
  DetectionIoU.content_ok cv hsv profile rect = true <->
  (1 # 100) < inject_Z (Z.of_nat (length (DetectionIoU.matching cv roi (light (bounds profile)))))
              / inject_Z (width rect * height rect) /\
  (1 # 100) < inject_Z (Z.of_nat (length (DetectionIoU.matching cv roi (white (bounds profile)))))
              / inject_Z (width rect * height rect).
Proof.
  intros Hroi Harea. unfold DetectionIoU.content_ok, DetectionIoU.triad_rule.
  rewrite Hroi, andb_true_iff, !density_exceeds by assumption. reflexivity.
Qed.

Lemma returned_true_iff (b : bool) : @Returned bool b = Returned true <-> b = true.
Proof. split; [intros H; injection H; trivial | intros ->; reflexivity]. Qed.

(** C4, as the specification has it, fails in the revision of
    src/utils/visionDetection.ts: a candidate of the right area and shape
    whose white pixels are 3 in 100 of its rectangle, above the floor of
    1 in 100, is rejected.  The floor there is [config.matchingThreshold],
    0.05 unless the caller says otherwise, over the area of the contour;
    with a threshold of 0.03 the same candidate is a match. *)
Lemma white_density_floor_is_configured :
  inject_Z (countNonZero (inRange Fixture.toy_cv
                            (map (map (fun p : Z * Z * Z * Z => fst p)) (rgba Fixture.speckled))
                            [0; 0; 180; 0] [180; 60; 255; 255]))
    / inject_Z (10 * 10) == 3 # 100 /\
  DetectionDensity.scanFrame (Some Fixture.toy_cv) (Some Fixture.speckled)
    Fixture.hue_profile DetectionDensity.default_config = (Returned false, []) /\
  DetectionDensity.scanFrame (Some Fixture.toy_cv) (Some Fixture.speckled)
    Fixture.hue_profile (DetectionDensity.mkConfig (3 # 100)) = (Returned true, []).
Proof. repeat split; vm_compute; reflexivity. Qed.

(** C4, amended.  In the revisions with the triad check, for a candidate
    rectangle that lies in the frame and is not empty, the check accepts
    (sets [detected] and leaves the loop) exactly when the fraction of
    the pixels of the region in the light range and the fraction in the
    white range both exceed 1 % strictly; after a candidate that the
    check does not accept, [detected] is what the candidates that follow
    make it.  In the revision with the white density alone, the check
    accepts exactly when the white pixels of the rectangle, over the area
    of the contour (the quotient as the engine computes it, rounded to
    binary64), exceed [config.matchingThreshold] strictly. *)
Theorem triad_check_density_floor
  (cv : Collaborator) (hsv : Mat) (profile : VisionProfile) (debugMode : bool)
  (rect : Rect) (roi : Mat) :
  Cv.roi hsv rect = Some roi ->
  (0 < width rect * height rect)%Z ->
  let area := inject_Z (width rect * height rect) in
  let lightFraction :=
    inject_Z (Z.of_nat (length (DetectionIoU.matching cv roi (light (bounds profile)))))
    / area in
  let whiteFraction :=
    inject_Z (Z.of_nat (length (DetectionIoU.matching cv roi (white (bounds profile)))))
    / area in
  let floor_passed := (1 # 100) < lightFraction /\ (1 # 100) < whiteFraction in
  (forall s,
     Scope.outcome (DetectionIoU.checked cv hsv profile debugMode rect s) = Returned true
     <-> floor_passed) /\
  (forall s,
     Scope.outcome (DetectionDeviation.checked cv hsv profile rect s) = Returned true
     <-> floor_passed) /\
  (forall expectedRect contour rest s,
     boundingRect contour = rect ->
     DetectionIoU.spatial_reject rect expectedRect = false ->
     DetectionIoU.clean s ->
     ~ floor_passed ->
     Scope.detected
       (Scope.store (DetectionIoU.scan_contours cv hsv profile expectedRect debugMode
                       (contour :: rest) s)) =
     Scope.detected
       (Scope.store (DetectionIoU.scan_contours cv hsv profile expectedRect debugMode
                       rest s))) /\
  (forall frame contour rest s,
     boundingRect contour = rect ->
     DetectionDeviation.spatial_reject rect frame (normalizedBox (spatial profile)) = false ->
     DetectionIoU.clean s ->
     ~ floor_passed ->
     Scope.detected
       (Scope.store (DetectionDeviation.scan_contours cv hsv profile frame
                       (contour :: rest) s)) =
     Scope.detected
       (Scope.store (DetectionDeviation.scan_contours cv hsv profile frame rest s))) /\
  (forall config contourArea s,
     0 < contourArea ->
     DetectionDensity.white_clean s ->
     (Scope.outcome (DetectionDensity.checked cv hsv config rect contourArea s) = Returned true
      <-> Js.double (DetectionDensity.matchingThreshold config) <
          Js.quot64
            (inject_Z (countNonZero (inRange cv roi [0; 0; 180; 0] [180; 60; 255; 255])))
            contourArea)).
Proof.
  intros Hroi Harea area lightFraction whiteFraction floor_passed.
  pose proof (content_ok_iff cv hsv profile rect roi Hroi Harea) as Hok.
  fold area lightFraction whiteFraction floor_passed in Hok.
  split; [|split; [|split; [|split]]].
  - intros s. rewrite checked_outcome, returned_true_iff. apply Hok.
  - intros s. rewrite deviation_checked_outcome, returned_true_iff. apply Hok.
  - intros expectedRect contour rest s Hrect Hspatial Hclean Hfail.
    destruct (scan_contours_result cv hsv profile expectedRect debugMode
                (contour :: rest) s Hclean) as (_ & Hd & _).
    destruct (scan_contours_result cv hsv profile expectedRect debugMode
                rest s Hclean) as (_ & Hd' & _).
    rewrite Hd, Hd'. cbn [existsb]. unfold DetectionIoU.passes at 1.
    rewrite Hrect, Hspatial. cbn [negb andb].
    destruct (DetectionIoU.content_ok cv hsv profile rect) eqn:E; [|reflexivity].
    exfalso. apply Hfail, Hok. reflexivity.
  - intros frame contour rest s Hrect Hspatial Hclean Hfail.
    destruct (deviation_scan_result cv hsv profile frame
                (contour :: rest) s Hclean) as (_ & Hd & _).
    destruct (deviation_scan_result cv hsv profile frame rest s Hclean) as (_ & Hd' & _).
    rewrite Hd, Hd'. cbn [existsb]. unfold DetectionDeviation.passes at 1.
    rewrite Hrect, Hspatial. cbn [negb andb].
    destruct (DetectionIoU.content_ok cv hsv profile rect) eqn:E; [|reflexivity].
    exfalso. apply Hfail, Hok. reflexivity.
  - intros config contourArea s Hpos Hclean.
    destruct (density_checked_result cv hsv config rect contourArea s Hclean) as (Ho & _).
    rewrite Ho, returned_true_iff.
    unfold DetectionDensity.content_ok, DetectionDensity.white_rule. rewrite Hroi.
    rewrite div64_positive by exact Hpos.
    cbn [Js.ngtb]. apply gtb_true.
Qed.

(** The theorem on the sample menu frame: a quarter of the region is
    light and a quarter is white, and the check accepts. *)
Lemma triad_check_density_floor_witness :
  Scope.outcome (DetectionIoU.checked Fixture.toy_cv Fixture.menu_hsv Fixture.full_profile
                   true (mkRect 0 0 2 2) Scope.fresh) = Returned true.
Proof.
  destruct (triad_check_density_floor Fixture.toy_cv Fixture.menu_hsv
              Fixture.full_profile true (mkRect 0 0 2 2) Fixture.menu_hsv)
    as [H _].
  - reflexivity.
  - reflexivity.
  - apply H. split; reflexivity.
Defined.

Lemma axis_diff_finite (candidate frameSize : Z) (target : Q) :
  (0 < frameSize)%Z ->
  DetectionDeviation.axis_diff candidate frameSize target =
  Js.Fin (DetectionDeviation.computed_deviation candidate frameSize target).
Proof.
  intros Hf. unfold DetectionDeviation.axis_diff, DetectionDeviation.computed_deviation.
  rewrite div64_finite by exact Hf. reflexivity.
Qed.

Lemma not_gtb_of_eq (a b : Q) : a == b -> Js.gtb a b = false.
Proof.
  intros H. apply ltb_false. rewrite H. apply Qle_refl.
Qed.

(** C5, as the specification has it, fails under the deviation policy: on
    a 20 x 20 frame, the candidate (3, 3, 8, 8) deviates from the template
    (0, 0, 0.25, 0.25) by exactly 0.15 on every axis, and is rejected.
    The engine computes 8/20 - 0.25 in binary64, which is
    0.15000000000000002, above its 0.15. *)
Lemma exact_deviation_is_rejected :
  DetectionDeviation.deviation 3 20 0 == 15 # 100 /\
  DetectionDeviation.deviation 8 20 (1 # 4) == 15 # 100 /\
  DetectionDeviation.tolerance <
    DetectionDeviation.computed_deviation 8 20 (1 # 4) /\
  DetectionDeviation.spatial_reject Fixture.shifted Fixture.frame_20
    Fixture.quarter_box = true.
Proof. repeat split; vm_compute; reflexivity. Qed.

(** C5, amended.  The thresholds of the spatial filter are inclusive.
    Overlap policy: a candidate is rejected exactly when its IoU with the
    projected template is below 0.3, so one at exactly 0.3 is accepted.
    Deviation policy (on a frame of positive size): the deviations are
    those that the engine computes, with the quotient and the difference
    rounded to binary64; a candidate is rejected exactly when some
    computed deviation is above the binary64 number 0.15, so one whose
    computed deviations all equal it is accepted. *)
Theorem spatial_threshold_inclusive :
  (forall rect expectedRect,
     DetectionIoU.spatial_reject rect expectedRect = true <->
     DetectionIoU.calculateIoU rect expectedRect < 3 # 10) /\
  (forall rect expectedRect,
     DetectionIoU.calculateIoU rect expectedRect == 3 # 10 ->
     DetectionIoU.spatial_reject rect expectedRect = false) /\
  (forall rect frame target,
     (0 < cols frame)%Z -> (0 < rows frame)%Z ->
     (DetectionDeviation.spatial_reject rect frame target = true <->
      DetectionDeviation.tolerance <
        DetectionDeviation.computed_deviation (x rect) (cols frame) (nb_x target) \/
      DetectionDeviation.tolerance <
        DetectionDeviation.computed_deviation (y rect) (rows frame) (nb_y target) \/
      DetectionDeviation.tolerance <
        DetectionDeviation.computed_deviation (width rect) (cols frame) (nb_w target) \/
      DetectionDeviation.tolerance <
        DetectionDeviation.computed_deviation (height rect) (rows frame) (nb_h target))) /\
  (forall rect frame target,
     (0 < cols frame)%Z -> (0 < rows frame)%Z ->
     DetectionDeviation.computed_deviation (x rect) (cols frame) (nb_x target)
       == DetectionDeviation.tolerance ->
     DetectionDeviation.computed_deviation (y rect) (rows frame) (nb_y target)
       == DetectionDeviation.tolerance ->
     DetectionDeviation.computed_deviation (width rect) (cols frame) (nb_w target)
       == DetectionDeviation.tolerance ->
     DetectionDeviation.computed_deviation (height rect) (rows frame) (nb_h target)
       == DetectionDeviation.tolerance ->
     DetectionDeviation.spatial_reject rect frame target = false).
Proof.
  split; [|split; [|split]].
  - intros rect expectedRect. apply ltb_true.
  - intros rect expectedRect H. unfold DetectionIoU.spatial_reject.
    apply ltb_false. rewrite H. apply Qle_refl.
  - intros rect frame target Hc Hr. unfold DetectionDeviation.spatial_reject.
    rewrite !axis_diff_finite by assumption. cbn [Js.ngtb].
    rewrite !orb_true_iff, !gtb_true. tauto.
  - intros rect frame target Hc Hr Hx Hy Hw Hh.
    unfold DetectionDeviation.spatial_reject.
    rewrite !axis_diff_finite by assumption. cbn [Js.ngtb].
    rewrite !not_gtb_of_eq by assumption. reflexivity.
Qed.

(** The theorem at the boundary itself: a strip with IoU exactly 0.3 is
    accepted, and so is a rectangle whose four quotients, 3/20, round to
    the engine's 0.15 against a template at the origin. *)
Lemma spatial_threshold_inclusive_witness :
  DetectionIoU.calculateIoU Fixture.strip_3 Fixture.template_10 == 3 # 10 /\
  DetectionIoU.spatial_reject Fixture.strip_3 Fixture.template_10 = false /\
  DetectionDeviation.spatial_reject Fixture.near Fixture.frame_20
    Fixture.origin_box = false.
Proof.
  destruct spatial_threshold_inclusive as (_ & Hiou & _ & Hdev).
  split; [reflexivity|]. split.
  - apply Hiou. reflexivity.
  - apply Hdev; vm_compute; reflexivity.
Defined.

End ScannerClaims.

(** ** Profile Builder *)

Module CalibrationFacts.
Import ColorRange Eff Cv Calibration EffFacts ScopeFacts DetectionFacts JsFacts.

(** The largest area found is bounded by any bound on the areas. *)
Lemma largest_bounded (contours : list Contour) (t : Q) :
  (forall c, In c contours -> contourArea c <= t) ->
  forall maxArea bestRect,
    maxArea <= t -> fst (largest contours maxArea bestRect) <= t.
Proof.
  induction contours as [|c rest IH]; intros Hall maxArea bestRect Hmax; [exact Hmax|].
  cbn [largest]. destruct (Js.gtb (contourArea c) maxArea).
  - apply IH; [intros; apply Hall; right; assumption|]. apply Hall. left. reflexivity.
  - apply IH; [intros; apply Hall; right; assumption|]. exact Hmax.
Qed.

Lemma gtb_false_of_le (a b : Q) : a <= b -> Js.gtb a b = false.
Proof. intros H. apply ltb_false. exact H. Qed.

(** The geometry step finds nothing when no contour is above 100. *)
Lemma find_geometry_nothing (cv : Collaborator) (src : Frame) (hsv : Mat)
  (darkBounds : HSVRange) :
  cvtColorHSV cv src = Some hsv ->
  (forall c, In c (findContours cv (inRange cv hsv (lower darkBounds) (upper darkBounds))) ->
             contourArea c <= 100) ->
  find_geometry cv src darkBounds = (Returned zero_spatial, [WarnNoMenuBackground]).
Proof.
  intros Hhsv Hsmall. unfold find_geometry. rewrite Hhsv. unfold cv_call.
  rewrite bind_ret.
  pose proof (largest_bounded _ 100 Hsmall 0 None) as Hb.
  destruct (largest _ 0 None) as [maxArea bestRect]. cbn [fst] in Hb.
  assert (0 <= 100) as H0 by discriminate. specialize (Hb H0).
  destruct bestRect as [r|]; [|reflexivity].
  rewrite (gtb_false_of_le _ _ Hb). reflexivity.
Qed.

Lemma measure_nothing (maxArea : Q) (bestRect : option Rect) (totalArea : Z) :
  maxArea <= 0 ->
  CalibrationHue.measure maxArea bestRect totalArea =
  (Returned CalibrationHue.zero_geometry, [WarnNoTargetObject]).
Proof.
  intros H. unfold CalibrationHue.measure.
  destruct bestRect as [r|]; [|reflexivity].
  rewrite (gtb_false_of_le _ _ H). reflexivity.
Qed.

(** The overlap of any rectangle with the empty rectangle at the origin
    is 0. *)
Lemma calculateIoU_zero_template (rect : Rect) :
  DetectionIoU.calculateIoU rect (mkRect 0 0 0 0) = 0.
Proof.
  unfold DetectionIoU.calculateIoU. cbn [x y width height].
  destruct (Z.max 0 (Z.min (x rect + width rect) (0 + 0) - Z.max (x rect) 0) <=? 0)%Z eqn:E.
  - reflexivity.
  - apply Z.leb_gt in E. lia.
Qed.

Lemma project_zero (fw fh : Z) :
  DetectionIoU.project (normalizedBox zero_spatial) fw fh = mkRect 0 0 0 0.
Proof.
  unfold DetectionIoU.project, zero_spatial. cbn [normalizedBox nb_x nb_y nb_w nb_h].
  rewrite !mul64_zero. reflexivity.
Qed.

(** With the all-zero template every contour is rejected by the overlap
    filter. *)
Lemma zero_template_rejects (cv : Collaborator) (hsv : Mat) (profile : VisionProfile)
  (contours : list Contour) :
  existsb (DetectionIoU.passes cv hsv profile (mkRect 0 0 0 0)) contours = false.
Proof.
  induction contours as [|c rest IH]; [reflexivity|].
  cbn [existsb]. unfold DetectionIoU.passes at 1, DetectionIoU.spatial_reject.
  rewrite calculateIoU_zero_template. exact IH.
Qed.

Lemma zero_template_never_matches (cv : option Collaborator) (srcFrame : option Frame)
  (profile : VisionProfile) (debugMode : bool) :
  spatial profile = zero_spatial ->
  outcome (DetectionIoU.scanFrame cv srcFrame profile debugMode) = Returned false.
Proof.
  intros Hz. destruct cv as [c|]; [|reflexivity].
  destruct srcFrame as [frame|]; [|rewrite scanFrame_unreadable by exact I; reflexivity].
  destruct (cvtColorHSV c frame) as [hsv|] eqn:Hhsv.
  - rewrite (scanFrame_converted c frame hsv profile debugMode Hhsv), Hz, project_zero,
      zero_template_rejects. reflexivity.
  - rewrite scanFrame_unreadable by exact Hhsv. reflexivity.
Qed.

(** With a target aspect ratio of 0 the shape filter of the
    white-density scanner rejects every rectangle of positive size: the
    deviation is infinite. *)
Lemma zero_aspect_rejects (rect : Rect) :
  (0 < Cv.width rect)%Z -> (0 < Cv.height rect)%Z ->
  DetectionDensity.shape_reject rect 0 = true.
Proof.
  intros Hw Hh. unfold DetectionDensity.shape_reject.
  rewrite div64_finite by exact Hh.
  cbn [Js.nsub64 Js.nabs Js.ndiv64].
  set (q := Js.quot64 (inject_Z (Cv.width rect)) (inject_Z (Cv.height rect))).
  assert (0 < q) as Hq.
  { unfold q, Js.quot64. apply double_pos. apply Qlt_shift_div_l.
    - apply double_pos. change 0 with (inject_Z 0). rewrite <- Zlt_Qlt. exact Hh.
    - rewrite Qmult_0_l. apply double_pos.
      change 0 with (inject_Z 0). rewrite <- Zlt_Qlt. exact Hw. }
  change (Js.double 0) with 0.
  assert (0 < Js.double (Qabs (Js.double (q - 0)))) as Hpos.
  { apply double_pos.
    assert (0 < Js.double (q - 0)) as Hd by (apply double_pos; lra).
    rewrite Qabs_pos; lra. }
  unfold Js.div64, Js.div. change (Js.double 0) with 0.
  change (Qeq_bool 0 0) with true. cbv iota.
  destruct (Qeq_bool (Js.double (Qabs (Js.double (q - 0)))) 0) eqn:E.
  - apply Qeq_bool_eq in E. rewrite E in Hpos. discriminate Hpos.
  - apply ltb_true in Hpos. rewrite Hpos. reflexivity.
Qed.

(** C10.  With the collaborator present and an image that converts, when
    no contour of the colour mask has sufficient area (above 100 for the
    fixed colours, above 0 for the dominant hue) [calibrateReference]
    returns, with a warning, a profile whose geometry is all zeros.  The
    scanners take it as their template: against the all-zero box the
    overlap filter lets no frame match, and against the aspect ratio 0
    the shape filter rejects every rectangle of positive size. *)
Theorem calibrateReference_zero_geometry
  (cv : Collaborator) (src : Frame) (hsv : Mat) :
  cvtColorHSV cv src = Some hsv ->
  (let darkBounds := getHsvRange MENU_DARK (mkTol 10 50 50) in
   (forall c, In c (findContours cv (inRange cv hsv (lower darkBounds) (upper darkBounds))) ->
              contourArea c <= 100) ->
   exists bounds,
     Calibration.calibrateReference (Some cv) (Some src) =
     (Returned {| bounds := bounds;
                  spatial := {| normalizedBox := mkBox 0 0 0 0; aspectRatio := 0 |} |},
      [WarnNoMenuBackground])) /\
  (forall roi,
     Cv.roi hsv (CalibrationHue.roiRect hsv) = Some roi ->
     let bounds := CalibrationHue.strict_bounds (CalibrationHue.mean_hue roi) in
     (forall c, In c (findContours cv (inRange cv hsv (lower bounds) (upper bounds))) ->
                contourArea c <= 0) ->
     CalibrationHue.calibrateReference (Some cv) (Some src) =
     (Returned {| CalibrationHue.hsvBounds := bounds;
                  CalibrationHue.geometry := CalibrationHue.mkGeometry 0 0 0 0 |},
      [WarnNoTargetObject])) /\
  (forall cv' srcFrame debugMode profile,
     spatial profile = {| normalizedBox := mkBox 0 0 0 0; aspectRatio := 0 |} ->
     outcome (DetectionIoU.scanFrame cv' srcFrame profile debugMode) = Returned false) /\
  (forall rect,
     (0 < Cv.width rect)%Z -> (0 < Cv.height rect)%Z ->
     DetectionDensity.shape_reject rect
       (CalibrationHue.aspectRatio (CalibrationHue.mkGeometry 0 0 0 0)) = true).
Proof.
  intros Hhsv. split; [|split; [|split; [|exact zero_aspect_rejects]]].
  - intros darkBounds Hsmall. eexists.
    unfold Calibration.calibrateReference, cv_call. rewrite bind_ret.
    fold darkBounds.
    rewrite (find_geometry_nothing cv src hsv darkBounds Hhsv Hsmall).
    reflexivity.
  - intros roi Hroi bounds Hsmall.
    unfold CalibrationHue.calibrateReference, cv_call.
    rewrite bind_ret, Hhsv, bind_ret, Hroi, bind_ret. fold bounds.
    pose proof (largest_bounded _ 0 Hsmall 0 None (Qle_refl 0)) as Hb.
    destruct (largest _ 0 None) as [maxArea bestRect]. cbn [fst] in Hb.
    rewrite (measure_nothing _ _ _ Hb). reflexivity.
  - intros cv' srcFrame debugMode profile Hz.
    apply zero_template_never_matches. exact Hz.
Qed.

(** The theorem on an all-green reference image: no pixel is in the dark
    range, and the profile comes back with zero geometry. *)
Lemma calibrateReference_zero_geometry_witness :
  exists bounds,
    Calibration.calibrateReference (Some Fixture.toy_cv)
      (Some (Fixture.solid 2 2 Fixture.green)) =
    (Returned {| bounds := bounds;
                 spatial := {| normalizedBox := mkBox 0 0 0 0; aspectRatio := 0 |} |},
     [WarnNoMenuBackground]).
Proof.
  destruct (calibrateReference_zero_geometry Fixture.toy_cv
              (Fixture.solid 2 2 Fixture.green)
              [[(60, 200, 200); (60, 200, 200)]; [(60, 200, 200); (60, 200, 200)]]%Z)
    as [H _].
  - reflexivity.
  - apply H. intros c Hin. vm_compute in Hin. contradiction.
Defined.

(** C1, as the specification has it, fails: on a reference image with no
    pixel in the colour range (all green for the fixed colours, all gray
    for the dominant hue) [calibrateReference] returns a profile; nothing
    is thrown. *)
Lemma calibrateReference_returns_without_region :
  (exists p, outcome (Calibration.calibrateReference (Some Fixture.toy_cv)
                        (Some (Fixture.solid 2 2 Fixture.green))) = Returned p) /\
  (exists p, outcome (CalibrationHue.calibrateReference (Some Fixture.toy_cv)
                        (Some (Fixture.solid 2 2 Fixture.gray))) = Returned p) /\
  ~ (exists e, outcome (Calibration.calibrateReference (Some Fixture.toy_cv)
                          (Some (Fixture.solid 2 2 Fixture.green))) = Thrown e) /\
  ~ (exists e, outcome (CalibrationHue.calibrateReference (Some Fixture.toy_cv)
                          (Some (Fixture.solid 2 2 Fixture.gray))) = Thrown e).
Proof.
  split; [eexists; vm_compute; reflexivity|].
  split; [eexists; vm_compute; reflexivity|].
  split; intros [e He]; vm_compute in He; discriminate He.
Qed.

Lemma calibration_try_returns (cv : Collaborator) (src : Frame) (darkBounds : HSVRange) :
  exists s, outcome (try_catch (find_geometry cv src darkBounds)
                       (fun _ => console ErrorCalibration ;;; ret zero_spatial)) =
            Returned s.
Proof.
  apply try_catch_returns. intros e. exists zero_spatial. reflexivity.
Qed.

(** C1, amended.  When no contour of the colour mask of a readable image
    has an area above the minimum (100 with the fixed colours, 0 with the
    dominant hue), as for an image with no pixel in the colour range,
    [calibrateReference] warns and returns a profile with zero geometry.
    With the fixed colours it throws exactly when the collaborator is
    missing or the image cannot be read; with the dominant hue, where
    nothing is caught, it throws in these two cases and also when the
    colour conversion or the centre region throws. *)
Theorem calibrateReference_throws_only_without_input
  (cv : option Collaborator) (image : HTMLImageElement) :
  ((exists e, outcome (Calibration.calibrateReference cv image) = Thrown e) <->
   cv = None \/ image = None) /\
  (cv = None \/ image = None \/
   (exists c src, cv = Some c /\ image = Some src /\
      match cvtColorHSV c src with
      | None => True
      | Some hsv => Cv.roi hsv (CalibrationHue.roiRect hsv) = None
      end) ->
   exists e, outcome (CalibrationHue.calibrateReference cv image) = Thrown e) /\
  (forall c src hsv,
     cv = Some c -> image = Some src -> cvtColorHSV c src = Some hsv ->
     let darkBounds := getHsvRange MENU_DARK (mkTol 10 50 50) in
     (forall cnt,
        In cnt (findContours c (inRange c hsv (lower darkBounds) (upper darkBounds))) ->
        contourArea cnt <= 100) ->
     exists bounds,
       Calibration.calibrateReference cv image =
       (Returned {| bounds := bounds; spatial := zero_spatial |},
        [WarnNoMenuBackground])) /\
  (forall c src hsv roi,
     cv = Some c -> image = Some src -> cvtColorHSV c src = Some hsv ->
     Cv.roi hsv (CalibrationHue.roiRect hsv) = Some roi ->
     let bounds := CalibrationHue.strict_bounds (CalibrationHue.mean_hue roi) in
     (forall cnt,
        In cnt (findContours c (inRange c hsv (lower bounds) (upper bounds))) ->
        contourArea cnt <= 0) ->
     CalibrationHue.calibrateReference cv image =
     (Returned {| CalibrationHue.hsvBounds := bounds;
                  CalibrationHue.geometry := CalibrationHue.zero_geometry |},
      [WarnNoTargetObject])).
Proof.
  split; [|split; [|split]].
  - split.
    + intros [e He]. destruct cv as [c|]; [|left; reflexivity].
      destruct image as [src|]; [|right; reflexivity].
      exfalso. unfold Calibration.calibrateReference, cv_call in He.
      rewrite bind_ret in He.
      destruct (calibration_try_returns c src (getHsvRange MENU_DARK (mkTol 10 50 50)))
        as [s Hs].
      rewrite (outcome_bind_returned _ _ s Hs) in He. discriminate He.
    + intros [-> | ->].
      * exists OpenCVNotLoaded. reflexivity.
      * destruct cv; [exists CvException | exists OpenCVNotLoaded]; reflexivity.
  - intros [-> | [-> | (c & src & -> & -> & H)]].
    + exists OpenCVNotLoaded. reflexivity.
    + destruct cv; [exists CvException | exists OpenCVNotLoaded]; reflexivity.
    + exists CvException. unfold CalibrationHue.calibrateReference, cv_call.
      rewrite bind_ret.
      destruct (cvtColorHSV c src) as [hsv|]; [|reflexivity].
      rewrite bind_ret, H. reflexivity.
  - intros c src hsv -> -> Hhsv darkBounds Hsmall. eexists.
    unfold Calibration.calibrateReference, cv_call. rewrite bind_ret.
    fold darkBounds.
    rewrite (find_geometry_nothing c src hsv darkBounds Hhsv Hsmall).
    reflexivity.
  - intros c src hsv roi -> -> Hhsv Hroi bounds Hsmall.
    unfold CalibrationHue.calibrateReference, cv_call.
    rewrite bind_ret, Hhsv, bind_ret, Hroi, bind_ret. fold bounds.
    pose proof (largest_bounded _ 0 Hsmall 0 None (Qle_refl 0)) as Hb.
    destruct (largest _ 0 None) as [maxArea bestRect]. cbn [fst] in Hb.
    rewrite (measure_nothing _ _ _ Hb). reflexivity.
Qed.

(** The theorem on a reference image of 2 x 2 pixels in the dark menu
    colour: its one contour has area 4, below the minimum, and the
    profile comes back with zero geometry. *)
Lemma calibrateReference_throws_only_without_input_witness :
  exists bounds,
    Calibration.calibrateReference (Some Fixture.toy_cv)
      (Some (Fixture.solid 2 2 Fixture.menu_dark)) =
    (Returned {| bounds := bounds; spatial := zero_spatial |}, [WarnNoMenuBackground]).
Proof.
  destruct (calibrateReference_throws_only_without_input (Some Fixture.toy_cv)
              (Some (Fixture.solid 2 2 Fixture.menu_dark))) as (_ & _ & H & _).
  apply (H Fixture.toy_cv (Fixture.solid 2 2 Fixture.menu_dark)
           [[(126, 234, 49); (126, 234, 49)]; [(126, 234, 49); (126, 234, 49)]]%Z);
    try reflexivity.
  intros cnt Hin. vm_compute in Hin. destruct Hin as [<-|[]]. discriminate.
Defined.

End CalibrationFacts.

Local Close Scope eff_scope.

(** ** Scan Orchestrator *)

Module EngineFacts.
Import Cv Engine JsFacts.
Local Open Scope task_scope.

(** *** Reasoning about tasks by their postconditions *)

Lemma wp_ret {A} (a : A) Q w : wp (ret a) Q w = Q (Done a) w.
Proof. reflexivity. Qed.

Lemma wp_raise {A} (Q : Result A -> World -> Prop) w : wp raise Q w = Q Raised w.
Proof. reflexivity. Qed.

Lemma wp_bind {A B} (m : Task A) (k : A -> Task B) Q w :
  wp m (fun r w' =>
          match r with
          | Done a => wp (k a) Q w'
          | Raised => Q Raised w'
          | Unfinished => Q Unfinished w'
          end) w ->
  wp (bind m k) Q w.
Proof.
  unfold wp, bind. destruct (m w) as [[a| |] w']; cbn; trivial.
Qed.

Lemma wp_try_catch {A} (m handler : Task A) Q w :
  wp m (fun r w' =>
          match r with
          | Raised => wp handler Q w'
          | other => Q other w'
          end) w ->
  wp (try_catch m handler) Q w.
Proof.
  unfold wp, try_catch. destruct (m w) as [[a| |] w']; cbn; trivial.
Qed.

Lemma wp_setState f Q w : wp (setState f) Q w = Q (Done tt) (updated f w).
Proof. reflexivity. Qed.

Lemma wp_await {A} env (promise : option A) Q w :
  wp (await env promise) Q w =
  match promise with
  | Some a => Q (Done a) (suspended env w)
  | None => Q Raised (suspended env w)
  end.
Proof. unfold wp, await. destruct promise; reflexivity. Qed.

Lemma wp_signal_aborted env Q w :
  wp (signal_aborted env) Q w = Q (Done (aborted env w)) w.
Proof. reflexivity. Qed.

Lemma wp_call {A} (m : Eff.M A) Q w :
  wp (call m) Q w =
  match Eff.outcome m with
  | Eff.Returned a => Q (Done a) w
  | Eff.Thrown _ => Q Raised w
  end.
Proof. unfold wp, call. destruct (Eff.outcome m); reflexivity. Qed.

Lemma wp_mono {A} (m : Task A) (Q1 Q2 : Result A -> World -> Prop) w :
  (forall r w', Q1 r w' -> Q2 r w') -> wp m Q1 w -> wp m Q2 w.
Proof. unfold wp. auto. Qed.

(** *** Lists of states *)

Lemma updates_app (l1 l2 : list Item) : updates (l1 ++ l2) = updates l1 ++ updates l2.
Proof.
  induction l1 as [|[s|n] l1 IH]; cbn; [reflexivity | f_equal; exact IH | exact IH].
Qed.

Lemma updates_updated f w :
  updates (trace (updated f w)) = updates (trace w) ++ [f (state w)].
Proof. unfold updated. cbn. rewrite updates_app. reflexivity. Qed.

Lemma updates_suspended env w : updates (trace (suspended env w)) = updates (trace w).
Proof. unfold suspended. cbn. rewrite updates_app. cbn. apply app_nil_r. Qed.


Lemma extends_trans {A} (l1 l2 l3 : list A) :
  extends l1 l2 -> extends l2 l3 -> extends l1 l3.
Proof.
  intros [m1 ->] [m2 ->]. exists (m1 ++ m2). symmetry. apply app_assoc.
Qed.

Lemma extends_snoc {A} (l : list A) (a : A) : extends l (l ++ [a]).
Proof. exists [a]. reflexivity. Qed.

Lemma StronglySorted_snoc {A} (R : A -> A -> Prop) (l : list A) (a : A) :
  StronglySorted R l -> Forall (fun b => R b a) l -> StronglySorted R (l ++ [a]).
Proof.
  induction 1 as [|b l Hl IH Hb]; intros Hall; cbn.
  - repeat constructor.
  - inversion Hall; subst. constructor.
    + apply IH. assumption.
    + apply Forall_app. split; [assumption|]. constructor; [assumption|constructor].
Qed.

Lemma increasing_snoc (events : list DetectionEvent) (t : Q) (c : Q) :
  increasing events ->
  Forall (fun e => timestamp e < t) events ->
  increasing (events ++ [mkEvent t c]).
Proof.
  intros Hinc Hlt. apply StronglySorted_snoc; [exact Hinc|].
  eapply Forall_impl; [|exact Hlt]. intros e He. exact He.
Qed.


Ltac wp_step :=
  lazymatch goal with
  | |- wp (bind _ _) _ _ => apply wp_bind
  | |- wp (setState _) _ _ => rewrite wp_setState
  | |- wp (ret _) _ _ => rewrite wp_ret
  | |- wp raise _ _ => rewrite wp_raise
  | |- wp (signal_aborted _) _ _ => rewrite wp_signal_aborted
  | |- wp (await _ _) _ _ => rewrite wp_await
  | |- wp (call _) _ _ => rewrite wp_call
  end;
  cbv beta iota.

Ltac case_aborted :=
  match goal with
  | |- context [aborted ?env ?w] => destruct (aborted env w) eqn:?
  end.

Lemma wp_conj {A} (m : Task A) (Q1 Q2 : Result A -> World -> Prop) w :
  wp m Q1 w -> wp m Q2 w -> wp m (fun r w' => Q1 r w' /\ Q2 r w') w.
Proof. unfold wp. auto. Qed.

(** What [scanFrame] gives the loop: a frame that is not a match, or an
    exception; never a match. *)
Lemma scan_cases (cv : option Collaborator) (mat : Frame)
  (profile : Calibration.VisionProfile) :
  Eff.outcome (DetectionIoU.scanFrame cv (Some mat) profile true) = Eff.Returned false \/
  exists e, Eff.outcome (DetectionIoU.scanFrame cv (Some mat) profile true) = Eff.Thrown e.
Proof.
  pose proof (DetectionFacts.scanFrame_not_true cv (Some mat) profile true) as H.
  destruct (Eff.outcome (DetectionIoU.scanFrame cv (Some mat) profile true)) as [[|]|e].
  - contradiction.
  - left. reflexivity.
  - right. exists e. reflexivity.
Qed.

(** *** No run records a Detection Event *)

Lemma intruded_quiet env w : detections (state w) = [] -> detections (intruded env w) = [].
Proof.
  intros H. unfold intruded.
  destruct (abort_at env) as [a|]; [|exact H].
  destruct (abort_by env) as [running progress' status'|]; [|exact H].
  destruct (a =? awaits w)%nat; [reflexivity|exact H].
Qed.

Lemma quiet_updated f w :
  detections (f (state w)) = detections (state w) ->
  quiet w -> quiet (updated f w).
Proof.
  intros Hsame [Hpast Hnow]. unfold quiet. rewrite updates_updated. cbn [state updated].
  rewrite Hsame. split; [|exact Hnow].
  apply Forall_app. split; [exact Hpast|].
  constructor; [rewrite Hsame; exact Hnow|constructor].
Qed.

Lemma quiet_suspended env w : quiet w -> quiet (suspended env w).
Proof.
  intros [Hpast Hnow]. unfold quiet. rewrite updates_suspended.
  split; [exact Hpast|]. apply intruded_quiet. exact Hnow.
Qed.

Section Quiet.
Variables (cv : option Collaborator) (env : Env).

Lemma process_frame_quiet video profile t nd w :
  quiet w ->
  wp (process_frame cv env video profile t nd) (fun _ w' => quiet w') w.
Proof.
  intros Hq. unfold process_frame.
  wp_step. destruct (grab video t) as [mat|]; repeat wp_step; [|exact Hq].
  destruct (scan_cases cv mat profile) as [Hb|[e Hb]]; rewrite Hb; [|exact Hq].
  repeat wp_step.
  apply quiet_suspended, quiet_updated; [reflexivity|exact Hq].
Qed.

Lemma scan_loop_quiet fuel video profile :
  forall t nd w,
    quiet w ->
    wp (scan_loop fuel cv env video profile t nd) (fun _ w' => quiet w') w.
Proof.
  induction fuel as [|fuel IH]; intros t nd w Hq; [exact Hq|].
  cbn [scan_loop]. destruct (Js.ltb t (duration video)); [|exact Hq].
  repeat wp_step. case_aborted; repeat wp_step; [exact Hq|].
  case_aborted; repeat wp_step; [apply quiet_suspended, Hq|].
  eapply wp_mono; [|apply process_frame_quiet; apply quiet_suspended, Hq].
  intros [nd'| |] w' Hq'; [|exact Hq'|exact Hq'].
  apply IH. exact Hq'.
Qed.

Lemma run_scan_quiet fuel w :
  quiet w -> wp (run_scan fuel cv env) (fun _ w' => quiet w') w.
Proof.
  intros Hq. unfold run_scan.
  repeat wp_step.
  assert (quiet (suspended env (updated
            (fun prev => mkState (isProcessing prev) (progress prev) calibrating
                           (detections prev)) w))) as H1.
  { apply quiet_suspended, quiet_updated; [reflexivity|exact Hq]. }
  destruct (image_load env) as [referenceImage|]; [|exact H1].
  repeat wp_step. case_aborted; repeat wp_step; [exact H1|].
  destruct (Eff.outcome (Calibration.calibrateReference cv referenceImage))
    as [profile|e]; [|exact H1].
  repeat wp_step.
  match goal with |- wp _ _ ?w2 => assert (quiet w2) as H2
    by (apply quiet_updated; [reflexivity|exact H1]) end.
  destruct (has_context env); repeat wp_step; [|exact H2].
  destruct (video_load env) as [video|]; [|apply quiet_suspended, H2].
  repeat wp_step.
  case_aborted; repeat wp_step; [apply quiet_suspended, H2|].
  eapply wp_mono; [|apply scan_loop_quiet; apply quiet_suspended, H2].
  intros r w' Hq'. destruct r as [[]| |]; [|exact Hq'|exact Hq'].
  repeat wp_step. destruct (aborted env w'); cbn [negb]; repeat wp_step; [exact Hq'|].
  apply quiet_updated; [reflexivity|exact Hq'].
Qed.

Lemma on_error_quiet w :
  quiet w -> wp (on_error env) (fun _ w' => quiet w') w.
Proof.
  intros Hq. unfold on_error. repeat wp_step.
  destruct (aborted env w); cbn [negb]; repeat wp_step; [exact Hq|].
  apply quiet_updated; [reflexivity|exact Hq].
Qed.

(** With the collaborator present, no state of a session holds a
    Detection Event: the first update empties the list, and [scanFrame]
    never reports a match. *)
Lemma session_quiet fuel prev :
  cv <> None ->
  quiet (snd (processVideo fuel cv env (start prev))).
Proof.
  intros Hsome.
  change (wp (processVideo fuel cv env) (fun _ w' => quiet w') (start prev)).
  unfold processVideo. destruct cv as [c|] eqn:Hcv; [|contradiction].
  rewrite <- Hcv. repeat wp_step. apply wp_try_catch.
  eapply wp_mono; [|apply run_scan_quiet].
  - intros r w' Hq'. destruct r; [exact Hq'| |exact Hq'].
    apply on_error_quiet. exact Hq'.
  - unfold quiet, updated, start. cbn. split; [|reflexivity].
    constructor; [reflexivity|constructor].
Qed.
End Quiet.


(** *** The loop ends *)

Lemma passes_left_step (d t : Q) :
  (passes_left d (t + interval) <= passes_left d t - 1)%Z.
Proof.
  unfold passes_left, interval.
  set (x := (d - t) * 2).
  rewrite (Qceiling_comp ((d - (t + (1 # 2))) * 2) (x - 1)) by (unfold x; ring).
  rewrite <- (Qceiling_Z (Qceiling x - 1)).
  apply Qceiling_resp_le.
  pose proof (Qle_ceiling x) as H.
  unfold Z.sub. rewrite inject_Z_plus. cbn [inject_Z Z.opp].
  change (inject_Z (-1)) with (-1). lra.
Qed.

Lemma passes_left_positive (d t : Q) : t < d -> (1 <= passes_left d t)%Z.
Proof.
  intros H. unfold passes_left.
  pose proof (Qle_ceiling ((d - t) * 2)) as Hc.
  assert (inject_Z 0 < inject_Z (Qceiling ((d - t) * 2))) as Hpos.
  { eapply Qlt_le_trans; [|exact Hc]. change (inject_Z 0) with 0. lra. }
  rewrite <- Zlt_Qlt in Hpos. lia.
Qed.

Lemma enough_step (fuel : nat) (d t : Q) :
  enough (S fuel) d t -> t < d -> enough fuel d (t + interval).
Proof.
  intros [_ Hf] Hlt. pose proof (passes_left_step d t). 
  pose proof (passes_left_positive d t Hlt). unfold enough. lia.
Qed.

Lemma process_frame_finishes cv env video profile t nd w :
  wp (process_frame cv env video profile t nd) (fun r _ => r <> Unfinished) w.
Proof.
  unfold process_frame.
  wp_step. destruct (grab video t) as [mat|]; repeat wp_step; [|discriminate].
  destruct (scan_cases cv mat profile) as [Hb|[e Hb]]; rewrite Hb; [|discriminate].
  repeat wp_step. discriminate.
Qed.

(** With enough fuel the loop is not cut short by the model. *)
Lemma scan_loop_finishes cv env video profile fuel :
  forall t nd w,
    enough fuel (duration video) t ->
    wp (scan_loop fuel cv env video profile t nd) (fun r _ => r <> Unfinished) w.
Proof.
  induction fuel as [|fuel IH]; intros t nd w Hfuel.
  - destruct Hfuel as [H _]. inversion H.
  - cbn [scan_loop]. destruct (Js.ltb t (duration video)) eqn:Hlt; [|discriminate].
    apply ltb_true in Hlt.
    repeat wp_step. case_aborted; repeat wp_step; [discriminate|].
    case_aborted; repeat wp_step; [discriminate|].
    eapply wp_mono; [|apply process_frame_finishes].
    intros [nd'| |] w' Hr; [|discriminate|contradiction].
    apply IH. apply enough_step; assumption.
Qed.



Lemma fuel_exists (env : Env) : exists fuel, enough_fuel env fuel.
Proof.
  unfold enough_fuel. destruct (video_load env) as [video|]; [|exists O; exact I].
  exists (S (Z.to_nat (passes_left (duration video) 0))).
  unfold enough. split; lia.
Qed.

(** *** Cancellation *)

Section Cancellation.
Variables (cv : option Collaborator) (env : Env) (k : nat).
Hypothesis Habort : abort_at env = Some k.












End Cancellation.

(** *** Running to the end *)

Section Completion.
Variables (cv : option Collaborator) (env : Env) (video : Video).
Variable profile : Calibration.VisionProfile.
Hypothesis Hgrab : forall t, grab video t <> None.
Hypothesis Hnone : abort_at env = None.

(** No scan of a frame of the video throws. *)
Hypothesis Hscan :
  forall t mat e,
    grab video t = Some mat ->
    Eff.outcome (DetectionIoU.scanFrame cv (Some mat) profile true) <> Eff.Thrown e.

Lemma never_aborted w : aborted env w = false.
Proof. unfold aborted. rewrite Hnone. reflexivity. Qed.

Lemma process_frame_completes t nd w :
  wp (process_frame cv env video profile t nd) (fun r _ => r <> Raised) w.
Proof.
  unfold process_frame. wp_step.
  destruct (grab video t) as [mat|] eqn:Hmat; [|destruct (Hgrab t Hmat)].
  repeat wp_step.
  destruct (scan_cases cv mat profile) as [Hb|[e Hb]].
  - rewrite Hb. repeat wp_step. discriminate.
  - destruct (Hscan t mat e Hmat Hb).
Qed.

Lemma scan_loop_completes fuel :
  forall t nd w,
    wp (scan_loop fuel cv env video profile t nd) (fun r _ => r <> Raised) w.
Proof.
  induction fuel as [|fuel IH]; intros t nd w; [discriminate|].
  cbn [scan_loop]. destruct (Js.ltb t (duration video)); [|discriminate].
  repeat wp_step. rewrite never_aborted. repeat wp_step.
  rewrite never_aborted. repeat wp_step.
  eapply wp_mono; [|apply process_frame_completes].
  intros [nd'| |] w' Hr; [|contradiction|discriminate].
  apply IH.
Qed.
End Completion.

(** The profile that calibration returns carries the colour ranges of the
    fixed target colours. *)
Lemma calibrated_bounds (c : Collaborator) (src : Frame) :
  exists sp,
    Eff.outcome (Calibration.calibrateReference (Some c) (Some src)) =
    Eff.Returned (Calibration.mkProfile Calibration.fixed_bounds sp).
Proof.
  unfold Calibration.calibrateReference, Eff.cv_call.
  rewrite DetectionFacts.bind_ret.
  destruct (CalibrationFacts.calibration_try_returns c src
              (ColorRange.getHsvRange ColorRange.MENU_DARK (ColorRange.mkTol 10 50 50)))
    as [sp Hsp].
  exists sp. rewrite (EffFacts.outcome_bind_returned _ _ sp Hsp). reflexivity.
Qed.

(** A frame with no pixel in the dark range is not a match, for a
    collaborator that finds no contour in a blank mask. *)
Lemma blank_frame_unmatched (c : Collaborator) (frame : Frame)
  (profile : Calibration.VisionProfile) (debugMode : bool) :
  (forall mask, blank mask -> findContours c mask = []) ->
  (forall hsv, cvtColorHSV c frame = Some hsv ->
     blank (inRange c hsv
              (ColorRange.lower (Calibration.dark (Calibration.bounds profile)))
              (ColorRange.upper (Calibration.dark (Calibration.bounds profile))))) ->
  Eff.outcome (DetectionIoU.scanFrame (Some c) (Some frame) profile debugMode) =
  Eff.Returned false.
Proof.
  intros Hcv Hblank.
  destruct (cvtColorHSV c frame) as [hsv|] eqn:Hhsv.
  - rewrite (DetectionFacts.scanFrame_converted c frame hsv profile debugMode Hhsv).
    cbv zeta. rewrite (Hcv _ (Hblank hsv eq_refl)). reflexivity.
  - rewrite DetectionFacts.scanFrame_unreadable by exact Hhsv. reflexivity.
Qed.

(** A scan that returns does not throw. *)
Lemma returned_not_thrown {A} (m : Eff.M A) (a : A) (e : Eff.Exn) :
  Eff.outcome m = Eff.Returned a -> Eff.outcome m <> Eff.Thrown e.
Proof. intros H. rewrite H. discriminate. Qed.

(** *** The loop with the worker *)

Lemma drive_completes (duration : Q) (worker : Q -> EngineWorker.FrameResult) fuel :
  forall t s,
    enough fuel duration t ->
    exists s',
      EngineWorker.drive fuel duration worker t s = Some s' /\
      status s' = completed /\ progress s' = 100%Z /\
      ((forall t', EngineWorker.detected (worker t') = false) ->
       detections s' = detections s).
Proof.
  induction fuel as [|fuel IH]; intros t s Hfuel.
  - destruct Hfuel as [H _]. inversion H.
  - cbn [EngineWorker.drive]. unfold EngineWorker.processNextFrame, Js.geb.
    destruct (Qle_bool duration t) eqn:Hle.
    + eexists. repeat split.
    + assert (t < duration) as Hlt.
      { apply ltb_true. unfold Js.ltb. rewrite Hle. reflexivity. }
      destruct (IH (t + interval) (EngineWorker.onWorkerMessage duration (worker t) s)
                  (enough_step _ _ _ Hfuel Hlt)) as (s' & Hrun & Hst & Hpr & Hdet).
      exists s'. repeat split; try assumption.
      intros Hquiet. rewrite (Hdet Hquiet).
      unfold EngineWorker.onWorkerMessage. rewrite (Hquiet t). reflexivity.
Qed.

End EngineFacts.

(** ** The claims on the Scan Orchestrator *)

Module EngineClaims.
Import Cv Engine EngineFacts.

(** C7.  When the image, the context and the video load, every frame can
    be drawn and no cancellation is requested, a run with fuel for the
    whole video whose scans do not throw goes through the whole timeline
    and ends with status [completed], progress 100 and [isProcessing]
    off.  In particular, when no frame of the video has a pixel in the
    dark colour range (for a collaborator that finds no contour in a
    blank mask), the run ends so and no state of the run holds a
    Detection Event.  The loop with the worker ends in the same state
    once the cursor reaches the duration. *)
Theorem scan_completes_at_end
  (c : Collaborator) (env : Env) (src : Frame) (video : Video)
  (fuel : nat) (prev : VisionState) :
  image_load env = Some (Some src) ->
  has_context env = true ->
  video_load env = Some video ->
  (forall t, grab video t <> None) ->
  abort_at env = None ->
  enough fuel (duration video) 0 ->
  let run := processVideo fuel (Some c) env (start prev) in
  ((forall profile t frame e,
      Eff.outcome (Calibration.calibrateReference (Some c) (Some src)) =
        Eff.Returned profile ->
      grab video t = Some frame ->
      Eff.outcome (DetectionIoU.scanFrame (Some c) (Some frame) profile true) <>
        Eff.Thrown e) ->
   fst run = Done tt /\
   status (state (snd run)) = completed /\
   progress (state (snd run)) = 100%Z /\
   isProcessing (state (snd run)) = false) /\
  ((forall mask, blank mask -> findContours c mask = []) ->
   (forall t frame hsv,
      grab video t = Some frame -> cvtColorHSV c frame = Some hsv ->
      blank (inRange c hsv
               (ColorRange.lower (Calibration.dark Calibration.fixed_bounds))
               (ColorRange.upper (Calibration.dark Calibration.fixed_bounds)))) ->
   fst run = Done tt /\
   status (state (snd run)) = completed /\
   progress (state (snd run)) = 100%Z /\
   detections (state (snd run)) = [] /\
   Forall (fun s => detections s = []) (updates (trace (snd run)))) /\
  (forall worker s,
     exists s',
       EngineWorker.drive fuel (duration video) worker 0 s = Some s' /\
       status s' = completed /\ progress s' = 100%Z /\
       ((forall t, EngineWorker.detected (worker t) = false) ->
        detections s' = detections s)).
Proof.
  intros Himage Hctx Hvideo Hgrab Hnone Hfuel run.
  assert ((forall profile t frame e,
             Eff.outcome (Calibration.calibrateReference (Some c) (Some src)) =
               Eff.Returned profile ->
             grab video t = Some frame ->
             Eff.outcome (DetectionIoU.scanFrame (Some c) (Some frame) profile true) <>
               Eff.Thrown e) ->
          fst run = Done tt /\
          status (state (snd run)) = completed /\
          progress (state (snd run)) = 100%Z /\
          isProcessing (state (snd run)) = false) as Hmain.
  { intros Hscan.
    change (wp (processVideo fuel (Some c) env)
              (fun r w =>
                 r = Done tt /\
                 status (state w) = completed /\ progress (state w) = 100%Z /\
                 isProcessing (state w) = false)
              (start prev)).
    unfold processVideo. repeat wp_step. apply wp_try_catch.
    unfold run_scan. repeat wp_step. rewrite Himage. repeat wp_step.
    rewrite (never_aborted env Hnone). repeat wp_step.
    destruct (calibrated_bounds c src) as [sp Hprofile]. rewrite Hprofile.
    repeat wp_step. rewrite Hctx. repeat wp_step. rewrite Hvideo. repeat wp_step.
    rewrite (never_aborted env Hnone). repeat wp_step.
    eapply wp_mono;
      [|apply wp_conj;
        [apply scan_loop_finishes; exact Hfuel
        |apply (scan_loop_completes (Some c) env video _ Hgrab Hnone)]].
    - intros r w' [Hfin Hok]. destruct r as [[]| |]; [|contradiction|contradiction].
      repeat wp_step. rewrite (never_aborted env Hnone). cbn [negb]. repeat wp_step.
      repeat split.
    - intros t mat e Hmat. exact (Hscan _ t mat e Hprofile Hmat). }
  split; [exact Hmain|].
  split; [|intros worker s; apply drive_completes; exact Hfuel].
  intros Hcv Hblank.
  destruct Hmain as (Hdone & Hstatus & Hprogress & _).
  { intros profile t frame e Hprofile Hframe.
    apply (returned_not_thrown _ false).
    destruct (calibrated_bounds c src) as [sp Hsp].
    rewrite Hsp in Hprofile. injection Hprofile as <-.
    apply blank_frame_unmatched; [exact Hcv|].
    intros hsv Hhsv. exact (Hblank t frame hsv Hframe Hhsv). }
  assert (quiet (snd run)) as [Hpast Hnow] by (apply session_quiet; discriminate).
  repeat split; assumption.
Qed.

(** The theorem on the green video: two frames are scanned, neither scan
    throws and neither is a match, and the session completes without an
    event. *)
Lemma scan_completes_at_end_witness :
  let run := processVideo 3 (Some Fixture.toy_cv) Fixture.quiet_env
               (start initial_state) in
  fst run = Done tt /\
  status (state (snd run)) = completed /\
  progress (state (snd run)) = 100%Z /\
  isProcessing (state (snd run)) = false /\
  detections (state (snd run)) = [].
Proof.
  destruct (scan_completes_at_end Fixture.toy_cv Fixture.quiet_env Fixture.reference
              Fixture.green_video 3 initial_state) as (Hmain & H & _).
  - reflexivity.
  - reflexivity.
  - reflexivity.
  - intros t. discriminate.
  - reflexivity.
  - split; [lia | reflexivity].
  - destruct Hmain as (_ & _ & _ & Hoff).
    { intros profile t frame e Hprofile Hframe.
      injection Hframe as <-. vm_compute in Hprofile. injection Hprofile as <-.
      vm_compute. discriminate. }
    destruct H as (H1 & H2 & H3 & H4 & _).
    + intros mask Hblank. unfold Fixture.toy_cv. cbn [findContours].
      assert (countNonZero mask = 0%Z) as ->; [|reflexivity].
      unfold countNonZero.
      assert (list_sum (map count_true mask) = 0%nat) as ->; [|reflexivity].
      induction mask as [|row mask IH]; [reflexivity|].
      cbn [map list_sum fold_right].
      assert (count_true row = 0%nat) as ->.
      { unfold count_true.
        assert (forall b, In b row -> b = false) as Hrow
          by (intros b Hb; apply (Hblank row (or_introl eq_refl) b Hb)).
        clear -Hrow. induction row as [|b row IHr]; [reflexivity|].
        cbn. rewrite (Hrow b (or_introl eq_refl)).
        apply IHr. intros b' Hb'. apply Hrow. right. exact Hb'. }
      apply IH. intros row' Hrow' b Hb. apply (Hblank row' (or_intror Hrow') b Hb).
    + intros t frame hsv Hframe Hhsv.
      injection Hframe as <-. vm_compute in Hhsv. injection Hhsv as <-.
      intros row Hrow b Hb. vm_compute in Hrow.
      repeat (destruct Hrow as [<-|Hrow];
              [vm_compute in Hb; repeat (destruct Hb as [<-|Hb]; [reflexivity|]);
               contradiction|]).
      contradiction.
    + repeat split; assumption.
Defined.





(** A whole scan of the sample menu video: the menu shows in the first
    frame, [scanFrame] throws on it, and the session ends in [error]
    without an event. *)
Example menu_video_scan :
  map status
    (updates (trace (snd (processVideo 3 (Some Fixture.toy_cv) Fixture.menu_env
                            (start initial_state))))) =
  [initializing; calibrating; processing; error] /\
  detections (state (snd (processVideo 3 (Some Fixture.toy_cv) Fixture.menu_env
                            (start initial_state)))) = [].
Proof. split; vm_compute; reflexivity. Qed.

(** A reference image that cannot be read: the session ends in [error]
    after the image has loaded. *)
Example unreadable_reference_scan :
  map status
    (updates (trace (snd (processVideo 3 (Some Fixture.toy_cv)
                            (mkEnv (Some None) true (Some Fixture.menu_video) None Unmount)
                            (start initial_state))))) =
  [initializing; calibrating; error].
Proof. vm_compute. reflexivity. Qed.

End EngineClaims.
